(** * Bibliography Manager: schema loading, form validation, search matching,
      BibTeX import and rendering

    A shallow embedding of [main.py].  Python [str] values are Rocq strings
    whose characters are code points below 256 (the Latin-1 range, which
    [str.lower] and [str.strip] map into itself); a bibliography entry (a
    Python [dict] from field name to text) is a [gmap string string]; the
    database, whose iteration order the search preserves, is the list of its
    [items()]. *)

From Stdlib Require Import PrimFloat.
From Stdlib Require Import Ascii String.
From stdpp Require Import gmap strings list.

Local Open Scope string_scope.

(** ** Python string primitives *)

Module Py.

Definition code (c : ascii) : N := N_of_ascii c.

(** [c.isspace()] on code points below 256: TAB..CR, FS..US, SPACE, NEL and
    NBSP.  This is the set [str.strip()] removes. *)
Definition isspace (c : ascii) : bool :=
  let n := code c in
  ((9 <=? n) && (n <=? 13) || (28 <=? n) && (n <=? 32)
   || (n =? 133) || (n =? 160))%N.

(** [c.lower()] on code points below 256: A..Z and the accented capitals
    U+00C0..U+00DE (U+00D7, the multiplication sign, apart) move up by 32. *)
Definition lower_char (c : ascii) : ascii :=
  let n := code c in
  if ((65 <=? n) && (n <=? 90)
      || (192 <=? n) && (n <=? 222) && negb (n =? 215))%N
  then ascii_of_N (n + 32) else c.

(** [s.lower()] on strings of code points below 256, where it lowers each
    character by itself.  Beyond that range [str.lower] is not a map of
    characters (a capital sigma U+03A3 lowers to U+03C2 at the end of a word
    and to U+03C3 elsewhere, U+0130 lowers to two code points); such strings
    are outside this model. *)
Fixpoint lower (s : string) : string :=
  match s with
  | EmptyString => EmptyString
  | String c s' => String (lower_char c) (lower s')
  end.

(** [c in chars] for a character [c]. *)
Fixpoint char_in (c : ascii) (chars : string) : bool :=
  match chars with
  | EmptyString => false
  | String d chars' => Ascii.eqb c d || char_in c chars'
  end.

Fixpoint lstrip_by (p : ascii -> bool) (s : string) : string :=
  match s with
  | EmptyString => EmptyString
  | String c s' => if p c then lstrip_by p s' else s
  end.

Fixpoint rstrip_by (p : ascii -> bool) (s : string) : string :=
  match s with
  | EmptyString => EmptyString
  | String c s' =>
      match rstrip_by p s' with
      | EmptyString => if p c then EmptyString else String c EmptyString
      | r => String c r
      end
  end.

Definition strip_by (p : ascii -> bool) (s : string) : string :=
  rstrip_by p (lstrip_by p s).

(** [s.strip()], [s.rstrip()] *)
Definition strip : string -> string := strip_by isspace.
Definition rstrip : string -> string := rstrip_by isspace.

(** [s.strip(chars)], [s.rstrip(chars)] *)
Definition strip_chars (chars : string) : string -> string :=
  strip_by (fun c => char_in c chars).
Definition rstrip_chars (chars : string) : string -> string :=
  rstrip_by (fun c => char_in c chars).

(** [s.startswith(p)] *)
Fixpoint startswith (p s : string) : bool :=
  match p, s with
  | EmptyString, _ => true
  | String a p', String b s' => Ascii.eqb a b && startswith p' s'
  | String _ _, EmptyString => false
  end.

(** [q in v]: substring test *)
Fixpoint isin (q v : string) : bool :=
  startswith q v
  || match v with
     | EmptyString => false
     | String _ v' => isin q v'
     end.

(** [s[1:]] *)
Definition tail (s : string) : string :=
  match s with
  | EmptyString => EmptyString
  | String _ s' => s'
  end.

(** [s.split(c, 1)] for a one-character separator, when [c] occurs in [s]:
    the text before the first [c] and the text after it.  [None] when [c]
    does not occur (Python then returns the one-element list [[s]]). *)
Fixpoint split1 (c : ascii) (s : string) : option (string * string) :=
  match s with
  | EmptyString => None
  | String a s' =>
      if Ascii.eqb a c then Some (EmptyString, s')
      else match split1 c s' with
           | Some (l, r) => Some (String a l, r)
           | None => None
           end
  end.

(** [s.split(sep)[0]] for a non-empty separator: the text before the first
    occurrence of [sep], the whole of [s] when there is none. *)
Fixpoint split_head (sep s : string) : string :=
  if startswith sep s then EmptyString
  else match s with
       | EmptyString => EmptyString
       | String c s' => String c (split_head sep s')
       end.

(** [s.replace(old, new)] for a non-empty [old]: occurrences are replaced
    left to right and do not overlap; [skip] counts the characters of the
    occurrence just replaced that are still to be passed over. *)
Fixpoint replace_from (old new : string) (skip : nat) (s : string) : string :=
  match s with
  | EmptyString => EmptyString
  | String c s' =>
      match skip with
      | S k => replace_from old new k s'
      | O =>
          if startswith old s
          then new ++ replace_from old new (String.length old - 1) s'
          else String c (replace_from old new 0 s')
      end
  end.

Definition replace (old new s : string) : string := replace_from old new 0 s.

(** [sep.join(items)] *)
Fixpoint join (sep : string) (items : list string) : string :=
  match items with
  | [] => EmptyString
  | [x] => x
  | x :: rest => x ++ sep ++ join sep rest
  end.

(** Truth value of a string: [bool(s)] *)
Definition truthy (s : string) : bool :=
  match s with
  | EmptyString => false
  | String _ _ => true
  end.

(** [x in l] for a list of strings *)
Definition mem (x : string) (l : list string) : bool :=
  existsb (String.eqb x) l.

End Py.

(** ** Exceptions

    A computation either returns a value or raises; [try .. except] is a
    handler on the raised exception. *)

Inductive exn : Type :=
| KeyError
| ValueError
| OverflowError
| re_error.

Inductive result (A : Type) : Type :=
| Ok (a : A)
| Raise (e : exn).

Arguments Ok {A} a.
Arguments Raise {A} e.

Definition bind {A B : Type} (m : result A) (k : A -> result B) : result B :=
  match m with
  | Ok a => k a
  | Raise e => Raise e
  end.

#[global] Instance result_bind : MBind result := fun A B k m => bind m k.
#[global] Instance result_ret : MRet result := @Ok.

(** [d[k]] on a dict: raises [KeyError] when [k] is absent. *)
Definition getitem {V : Type} (d : gmap string V) (k : string) : result V :=
  match d !! k with
  | Some v => Ok v
  | None => Raise KeyError
  end.

(** ** The schema source and the settings *)

(** One value of [bibtex_info['entry_types']]. *)
Record entry_type_info : Type := {
  required : list string;
  optional : list string;
  description : string
}.

(** [bibtex_info]: the entry types by name, and the fields with their help
    texts in the order of the JSON object ([list(d.keys())] is that order). *)
Record schema : Type := {
  entry_types : gmap string entry_type_info;
  fields : list (string * string)
}.

(** An entry of the database: field name to text. *)
Abbreviation entry_dict := (gmap string string).

(** The database: the [items()] of the dict loaded from the JSON file. *)
Abbreviation database := (list (string * gmap string string)).

(** [k in db] *)
Definition db_mem (k : string) (db : database) : bool :=
  existsb (fun kv => String.eqb k (fst kv)) db.

(** [db[k] = v]: an existing key keeps its position, a new one goes last. *)
Fixpoint db_set (k : string) (v : entry_dict) (db : database) : database :=
  match db with
  | [] => [(k, v)]
  | (k', v') :: db' =>
      if String.eqb k k' then (k, v) :: db' else (k', v') :: db_set k v db'
  end.

(** [del db[k]] for a key that is present *)
Definition db_del (k : string) (db : database) : database :=
  filter (fun kv => negb (String.eqb k (fst kv))) db.

(** ** [load_bibtex_fields] *)

(** [[x for x in l if not (x in seen or seen.add(x))]] *)
Fixpoint dedupe_from (seen : gset string) (l : list string) : list string :=
  match l with
  | [] => []
  | x :: l' =>
      if decide (x ∈ seen) then dedupe_from seen l'
      else x :: dedupe_from ({[x]} ∪ seen) l'
  end.

(** The value of the global [BIB_FIELDS] after [load_bibtex_fields], from the
    schema's field names and the [field_order] of the settings. *)
Definition load_bibtex_fields (registry field_order : list string) : list string :=
  let BIB_FIELDS := registry in
  match field_order with
  | [] => BIB_FIELDS
  | _ :: _ =>
      let BIB_FIELDS := List.filter (fun f => Py.mem f BIB_FIELDS) field_order in
      let BIB_FIELDS :=
        (BIB_FIELDS ++ List.filter (fun f => negb (Py.mem f field_order)) BIB_FIELDS)%list in
      dedupe_from ∅ BIB_FIELDS
  end.

(** The canonical field list as the specification words it: the registered
    fields that [field_order] names, in its sequence and without repetition,
    then the registered fields that [field_order] does not name. *)
Definition canonical_fields_spec (registry field_order : list string) : list string :=
  (dedupe_from ∅ (List.filter (fun f => Py.mem f registry) field_order)
   ++ List.filter (fun f => negb (Py.mem f field_order)) registry)%list.

(** ** The entry form *)

Inductive form_mode : Type := add | edit.

(** A [tk.Entry]: its text and whether its state is ['normal']. *)
Record widget : Type := {
  text : string;
  normal : bool
}.

(** The form: the entry-type variable, the key widget's text when the key is
    shown, and the dict [fields] of one widget per name of [BIB_FIELDS]. *)
Record form : Type := {
  entry_type_var : string;
  key_entry : option string;
  widgets : gmap string widget
}.

(** [f.replace(' or ', '/').split('/')[0]] *)
Definition first_name (f : string) : string :=
  Py.split_head "/" (Py.replace " or " "/" f).

(** The sets [required] and [optional] of [update_fields]. *)
Definition required_set (info : entry_type_info) : gset string :=
  list_to_set (map first_name (required info)).
Definition optional_set (info : entry_type_info) : gset string :=
  list_to_set (map first_name (optional info)).

(** The body of the loop of [update_fields] for one field: a required or
    optional field is enabled; another one is cleared and disabled ([delete]
    changes nothing on a widget that is already disabled). *)
Definition update_widget (info : entry_type_info) (field : string) (w : widget) : widget :=
  if decide (field ∈ required_set info ∨ field ∈ optional_set info)
  then {| text := text w; normal := true |}
  else {| text := (if normal w then "" else text w); normal := false |}.

Fixpoint update_loop (info : entry_type_info) (BIB_FIELDS : list string)
    (ws : gmap string widget) : result (gmap string widget) :=
  match BIB_FIELDS with
  | [] => Ok ws
  | field :: rest =>
      w ← getitem ws field;
      update_loop info rest (<[field := update_widget info field w]> ws)
  end.

Definition update_fields (sch : schema) (BIB_FIELDS : list string) (fm : form) : result form :=
  info ← getitem (entry_types sch) (entry_type_var fm);
  ws ← update_loop info BIB_FIELDS (widgets fm);
  Ok {| entry_type_var := entry_type_var fm; key_entry := key_entry fm; widgets := ws |}.

(** The widgets as created: one per field, holding [entry_data[field]] when
    there is one. *)
Definition new_widget (entry_data : option entry_dict) (field : string) : widget :=
  {| text := match entry_data with
             | Some d => default "" (d !! field)
             | None => ""
             end;
     normal := true |}.

Fixpoint create_widgets (entry_data : option entry_dict) (BIB_FIELDS : list string)
    (ws : gmap string widget) : gmap string widget :=
  match BIB_FIELDS with
  | [] => ws
  | field :: rest =>
      create_widgets entry_data rest (<[field := new_widget entry_data field]> ws)
  end.

(** [bool(entry_data)]: [None] and the empty dict are false. *)
Definition data_truthy (entry_data : option entry_dict) : option entry_dict :=
  match entry_data with
  | Some d => if decide (d = ∅) then None else Some d
  | None => None
  end.

(** The form as [entry_form_gui] builds it before the user acts. *)
Definition entry_form_gui (sch : schema) (field_order : list string) (mode : form_mode)
    (key : option string) (entry_data : option entry_dict) (show_key : bool)
    : result form :=
  let BIB_FIELDS := load_bibtex_fields (map fst (fields sch)) field_order in
  let data := data_truthy entry_data in
  let et := match data with
            | Some d => default "article" (d !! "entry_type")
            | None => "article"
            end in
  let key_text :=
    match mode, key with
    | edit, Some (String c k) => String c k
    | _, _ => match data with
              | Some d => default "" (d !! "key")
              | None => ""
              end
    end in
  _ ← getitem (entry_types sch) et;
  update_fields sch BIB_FIELDS
    {| entry_type_var := et;
       key_entry := (if show_key then Some key_text else None);
       widgets := create_widgets data BIB_FIELDS ∅ |}.

(** What the user does to an open form: type into a field, type into the key
    box, choose an entry type (the trace then runs [update_fields]). *)
Inductive action : Type :=
| SetField (field value : string)
| SetKey (value : string)
| SelectType (entry_type : string).

Definition act (sch : schema) (BIB_FIELDS : list string) (fm : form) (a : action)
    : result form :=
  match a with
  | SetField field value =>
      match widgets fm !! field with
      | Some w =>
          if normal w
          then Ok {| entry_type_var := entry_type_var fm; key_entry := key_entry fm;
                     widgets := <[field := {| text := value; normal := true |}]> (widgets fm) |}
          else Ok fm
      | None => Ok fm
      end
  | SetKey value =>
      Ok {| entry_type_var := entry_type_var fm;
            key_entry := (match key_entry fm with Some _ => Some value | None => None end);
            widgets := widgets fm |}
  | SelectType et =>
      update_fields sch BIB_FIELDS
        {| entry_type_var := et; key_entry := key_entry fm; widgets := widgets fm |}
  end.

Fixpoint acts (sch : schema) (BIB_FIELDS : list string) (fm : form) (l : list action)
    : result form :=
  match l with
  | [] => Ok fm
  | a :: l' => fm' ← act sch BIB_FIELDS fm a; acts sch BIB_FIELDS fm' l'
  end.

(** *** [save], the command of the form's save button *)

(** What a press of the save button ends in: an error box (the form stays
    open and nothing is saved), a "no" to the question about missing
    required fields, or the call [on_save(new_key, new_entry)]. *)
Inductive save_outcome : Type :=
| ShowError (msg : string)
| Declined
| Saved (new_key : string) (new_entry : entry_dict).

(** One step of the loop that builds [required_flat]. *)
Definition flatten_required (rf : string) : string :=
  if Py.isin " or " rf then Py.split_head " or " rf
  else if Py.isin " and/or " rf then Py.split_head " and/or " rf
  else rf.

(** The loop that builds [missing]; [fields[rf]] raises [KeyError] when the
    form has no widget of that name. *)
Fixpoint missing_loop (ws : gmap string widget) (required_flat : list string)
    : result (list string) :=
  match required_flat with
  | [] => Ok []
  | rf :: rest =>
      let rf := Py.strip rf in
      if String.eqb rf "key" then missing_loop ws rest
      else
        w ← getitem ws rf;
        more ← missing_loop ws rest;
        Ok (if Py.truthy (Py.strip (text w)) then more else rf :: more)
  end.

(** [{field: ent.get() for field, ent in fields.items()
      if ent.get() and ent['state'] == 'normal'}] *)
Definition collect_entry (ws : gmap string widget) : entry_dict :=
  omap (fun w => if Py.truthy (text w) && normal w then Some (text w) else None) ws.

(** [new_key]: the trimmed text of the key box, or without a key box the
    key the form was opened with. *)
Definition new_key_of (fm : form) (key : option string) : string :=
  match key_entry fm with
  | Some t => Py.strip t
  | None => match key with
            | Some k => k
            | None => ""
            end
  end.

Definition save (sch : schema) (mode : form_mode) (show_key : bool) (key : option string)
    (fm : form) (answer : bool) (db : database) : result save_outcome :=
  let new_key := new_key_of fm key in
  let entry_type := Py.strip (entry_type_var fm) in
  info ← getitem (entry_types sch) entry_type;
  missing ← missing_loop (widgets fm) (map flatten_required (required info));
  if show_key && negb (Py.truthy new_key)
  then Ok (ShowError "Please enter a value for 'Key'.")
  else if negb (Py.truthy entry_type)
  then Ok (ShowError "Please select an entry type.")
  else if (match mode with add => true | edit => false end)
          && show_key && db_mem new_key db
  then Ok (ShowError "Key already exists")
  else if (match missing with [] => false | _ :: _ => true end) && negb answer
  then Ok Declined
  else Ok (Saved new_key (<["entry_type" := entry_type]> (collect_entry (widgets fm)))).

(** One press of the save button: [save] reads the database file [db]; only
    when it gets as far as [on_save(new_key, new_entry)] does the callback
    change the store it writes to. *)
Definition press_save {S : Type} (sch : schema) (mode : form_mode) (show_key : bool)
    (key : option string) (on_save : string -> entry_dict -> S -> S)
    (fm : form) (answer : bool) (db : database) (store : S)
    : result (save_outcome * S) :=
  r ← save sch mode show_key key fm answer db;
  Ok (r, match r with
         | Saved new_key new_entry => on_save new_key new_entry store
         | _ => store
         end).

(** A form from its opening to one press of the save button: the user's
    actions [user] and the answer [answer] to the question about missing
    fields, should it be asked. *)
Definition form_session {S : Type} (sch : schema) (field_order : list string)
    (mode : form_mode) (key : option string) (entry_data : option entry_dict)
    (show_key : bool) (on_save : string -> entry_dict -> S -> S)
    (user : list action) (answer : bool) (db : database) (store : S)
    : result (save_outcome * S) :=
  let BIB_FIELDS := load_bibtex_fields (map fst (fields sch)) field_order in
  fm0 ← entry_form_gui sch field_order mode key entry_data show_key;
  fm ← acts sch BIB_FIELDS fm0 user;
  press_save sch mode show_key key on_save fm answer db store.

(** [add_entry_gui]: its [on_save] loads the database file again and writes
    the entry at the key. *)
Definition add_on_save (new_key : string) (new_entry : entry_dict) (db : database)
    : database :=
  db_set new_key new_entry db.

Definition add_entry_gui (sch : schema) (field_order : list string)
    (user : list action) (answer : bool) (db : database)
    : result (save_outcome * database) :=
  form_session sch field_order add None None true add_on_save user answer db db.

(** *** The review of one imported entry

    [import_entries] holds the database in memory while the entries are
    reviewed and writes the file at the end; the form's [save] still reads
    the file.  [ask_key k] and [ask_entry k] are the user's answers to the
    questions about a duplicate key [k] and about an entry [k] with the same
    title and author. *)

Definition same_title_author (new_title new_author : string) (e : entry_dict) : bool :=
  String.eqb (Py.lower (Py.strip (default "" (e !! "title")))) new_title
  && String.eqb (Py.lower (Py.strip (default "" (e !! "author")))) new_author
  && Py.truthy new_title && Py.truthy new_author.

(** The loop over [db.items()]: [false] when an answer "no" skips the entry. *)
Fixpoint duplicate_loop (ask_entry : string -> bool) (new_key new_title new_author : string)
    (items : database) : bool :=
  match items with
  | [] => true
  | (k, e) :: rest =>
      if String.eqb k new_key
      then duplicate_loop ask_entry new_key new_title new_author rest
      else if same_title_author new_title new_author e
      then if ask_entry k
           then duplicate_loop ask_entry new_key new_title new_author rest
           else false
      else duplicate_loop ask_entry new_key new_title new_author rest
  end.

Definition import_on_save (ask_key ask_entry : string -> bool)
    (new_key : string) (new_entry : entry_dict) (db : database) : database :=
  if db_mem new_key db && negb (ask_key new_key) then db
  else
    let new_title := Py.lower (Py.strip (default "" (new_entry !! "title"))) in
    let new_author := Py.lower (Py.strip (default "" (new_entry !! "author"))) in
    if duplicate_loop ask_entry new_key new_title new_author db
    then db_set new_key new_entry db
    else db.

(** The form for the parsed entry [(key, entry)]; [file] is the database
    file, [db] the database in memory. *)
Definition review_entry (sch : schema) (field_order : list string)
    (ask_key ask_entry : string -> bool) (key : string) (entry : entry_dict)
    (user : list action) (answer : bool) (file db : database)
    : result (save_outcome * database) :=
  form_session sch field_order add (Some key) (Some entry) true
    (import_on_save ask_key ask_entry) user answer file db.

(** ** [import_entries]: the parser *)

(** The variables of the loop over the lines. *)
Record parser : Type := {
  parsed_entries : list (string * entry_dict);
  entry : entry_dict;
  key : option string;
  entry_type : option string;
  inside_entry : bool
}.

Definition parser_init : parser :=
  {| parsed_entries := []; entry := ∅; key := None; entry_type := None;
     inside_entry := false |}.

(** [if entry and key: entry['entry_type'] = entry_type;
      parsed_entries.append((key, entry.copy()))].
    [key] is only ever assigned together with [entry_type], so the last case
    below is never reached (lemma [key_has_type]). *)
Definition flush (st : parser) : list (string * entry_dict) :=
  if decide (entry st = ∅) then parsed_entries st
  else match key st, entry_type st with
       | Some (String c k), Some et =>
           (parsed_entries st ++ [(String c k, <["entry_type" := et]> (entry st))])%list
       | _, _ => parsed_entries st
       end.

(** The header after the [@]: [entry_type, rest = line[1:].split('{', 1)] and
    [key = rest.split(',', 1)[0].strip()]; the unpacking raises [ValueError]
    when there is no brace. *)
Definition parse_header (line : string) : result (string * string) :=
  match Py.split1 "{" (Py.tail line) with
  | Some (et, rest) => Ok (et, Py.strip (Py.split_head "," rest))
  | None => Raise ValueError
  end.

(** A field line: [field, value = line.split('=', 1)], then the trimming. *)
Definition parse_field (line : string) : result (string * string) :=
  match Py.split1 "=" line with
  | Some (field, value) =>
      Ok (Py.lower (Py.strip field),
          Py.strip (Py.strip_chars "{}" (Py.strip_chars "," (Py.strip value))))
  | None => Raise ValueError
  end.

(** The body of the loop for one line. *)
Definition parse_line (st : parser) (raw : string) : parser :=
  let line := Py.strip raw in
  if negb (Py.truthy line) then st
  else if Py.startswith "@" line then
    let flushed := flush st in
    match parse_header line with
    | Ok (et, k) =>
        {| parsed_entries := flushed; entry := ∅; key := Some k;
           entry_type := Some et; inside_entry := true |}
    | Raise _ =>
        {| parsed_entries := flushed; entry := ∅; key := None;
           entry_type := Some "article"; inside_entry := true |}
    end
  else if inside_entry st && Py.isin "=" line then
    match parse_field line with
    | Ok (field, value) =>
        {| parsed_entries := parsed_entries st; entry := <[field := value]> (entry st);
           key := key st; entry_type := entry_type st; inside_entry := inside_entry st |}
    | Raise _ => st
    end
  else if inside_entry st && Py.startswith "}" line then
    {| parsed_entries := flush st; entry := ∅; key := None; entry_type := None;
       inside_entry := false |}
  else st.

(** The loop over the lines and the flush after it. *)
Definition parse_lines (lines : list string) : list (string * entry_dict) :=
  flush (foldl parse_line parser_init lines).

(** Reading the file in text mode: a CR LF pair and a lone CR both become
    LF, and iterating the file gives the text between the line feeds (a last
    piece only when it is not empty). *)
Definition LF : ascii := ascii_of_N 10.
Definition CR : ascii := ascii_of_N 13.

Fixpoint universal_newlines (s : string) : string :=
  match s with
  | EmptyString => EmptyString
  | String c s' =>
      if Ascii.eqb c CR then
        match s' with
        | String d _ =>
            if Ascii.eqb d LF then universal_newlines s'
            else String LF (universal_newlines s')
        | EmptyString => String LF EmptyString
        end
      else String c (universal_newlines s')
  end.

(** The pieces between line feeds, the last one included. *)
Fixpoint split_lf (s : string) : list string :=
  match s with
  | EmptyString => [EmptyString]
  | String c s' =>
      if Ascii.eqb c LF then EmptyString :: split_lf s'
      else match split_lf s' with
           | h :: t => String c h :: t
           | [] => [String c EmptyString]
           end
  end.

Fixpoint drop_empty_last (l : list string) : list string :=
  match l with
  | [] => []
  | [x] => if Py.truthy x then [x] else []
  | x :: l' => x :: drop_empty_last l'
  end.

Definition file_lines (text : string) : list string :=
  drop_empty_last (split_lf (universal_newlines text)).

(** [lines = [line.rstrip() for line in f]], then the loop: the entries
    parsed from the text of [input.txt]. *)
Definition parse (text : string) : list (string * entry_dict) :=
  parse_lines (map Py.rstrip (file_lines text)).

(** ** [search]: matching and rendering *)

(** [bibtex_lines[-1] = f(bibtex_lines[-1])] *)
Fixpoint map_last (f : string -> string) (l : list string) : list string :=
  match l with
  | [] => []
  | [x] => [f x]
  | x :: l' => x :: map_last f l'
  end.

Definition TAB : string := String (ascii_of_N 9) EmptyString.

(** One field line, as an f-string. *)
Definition field_line (f value : string) : string :=
  TAB ++ f ++ TAB ++ TAB ++ " = {" ++ value ++ "},".

(** The lines of one rendered entry. *)
Definition bibtex_lines (k : string) (e : entry_dict) (entry_type : string)
    (field_order : list string) : list string :=
  let header := "@" ++ entry_type ++ "{" ++ k ++ "," in
  let body :=
    flat_map (fun f => match e !! f with
                       | Some v => [field_line f v]
                       | None => []
                       end) field_order in
  (map_last (Py.rstrip_chars ",") (header :: body) ++ ["}"])%list.

(** The text of an entry of the given type. *)
Definition serialize (k : string) (e : entry_dict) (entry_type : string)
    (field_order : list string) : string :=
  Py.join (String LF EmptyString) (bibtex_lines k e entry_type field_order).

(** [bibtex_entry] of the result loop: the type is the entry's own. *)
Definition bibtex_entry (k : string) (e : entry_dict) (field_order : list string) : string :=
  serialize k e (default "article" (e !! "entry_type")) field_order.

Section Search.

(** [re.search(query, value)] as a truth value; it raises [re.error] for a
    pattern that does not compile.  [SequenceMatcher(None, a, b).ratio()]. *)
Variable re_search : string -> string -> result bool.
Variable ratio : string -> string -> float.

(** [try: if re.search(query, value): matched = True
    except re.error: pass] *)
Definition try_regex (query value : string) (matched : bool) : result bool :=
  match re_search query value with
  | Ok found => Ok (if found then true else matched)
  | Raise re_error => Ok matched
  | Raise e => Raise e
  end.

(** The body of the loop over the database for one value: whether it matched
    and the preview text, [value if preview_match else '']. *)
Definition matches (value query : string) (selected_matches : list string)
    (fuzzy_sensitivity : float) : result (bool * string) :=
  let matched := false in
  let preview_match := false in
  let matched :=
    if Py.mem "case-sensitive" selected_matches then
      if Py.mem "exact" selected_matches && String.eqb value query then true
      else if Py.mem "contains" selected_matches && Py.isin query value then true
      else matched
    else
      if Py.mem "exact" selected_matches
         && String.eqb (Py.lower value) (Py.lower query) then true
      else if Py.mem "contains" selected_matches
              && Py.isin (Py.lower query) (Py.lower value) then true
      else matched in
  matched ←
    (if Py.mem "regex" selected_matches then try_regex query value matched
     else Ok matched);
  let '(matched, preview_match) :=
    if Py.mem "fuzzy" selected_matches then
      let similarity := ratio (Py.lower value) (Py.lower query) in
      if PrimFloat.leb fuzzy_sensitivity similarity then (true, true)
      else (matched, preview_match)
    else (matched, preview_match) in
  Ok (matched, if preview_match then value else "").

(** The loop over [db.items()]: the list [results]. *)
Fixpoint search (db : database) (field query : string) (selected_matches : list string)
    (fuzzy_sensitivity : float) : result (list (string * entry_dict * string)) :=
  match db with
  | [] => Ok []
  | (k, e) :: rest =>
      let value := default "" (e !! field) in
      '(matched, preview) ← matches value query selected_matches fuzzy_sensitivity;
      results ← search rest field query selected_matches fuzzy_sensitivity;
      Ok (if matched : bool then (k, e, preview) :: results else results)
  end.

End Search.

(** ** Notions used in the statements *)

(** The fuzzy test of [matches]: [similarity >= fuzzy_sensitivity]. *)
Definition fuzzy_holds (ratio : string -> string -> float)
    (value query : string) (fuzzy_sensitivity : float) : bool :=
  PrimFloat.leb fuzzy_sensitivity (ratio (Py.lower value) (Py.lower query)).

(** What the exact and contains modes decide, with or without the
    case-sensitive modifier. *)
Definition literal_match (value query : string) (selected_matches : list string) : bool :=
  if Py.mem "case-sensitive" selected_matches then
    Py.mem "exact" selected_matches && String.eqb value query
    || Py.mem "contains" selected_matches && Py.isin query value
  else
    Py.mem "exact" selected_matches && String.eqb (Py.lower value) (Py.lower query)
    || Py.mem "contains" selected_matches && Py.isin (Py.lower query) (Py.lower value).


(** The selected modes with the regex mode taken out. *)
Definition without_regex (modes : list string) : list string :=
  List.filter (fun m => negb (String.eqb m "regex")) modes.

(** ** Sample inputs *)

(** A stand-in for [re.search] that knows one pattern that does not compile,
    the lone parenthesis, and otherwise searches for the query literally; a
    stand-in for the similarity ratio that tells equal strings from others. *)
Definition sample_re_search (query value : string) : result bool :=
  if String.eqb query "(" then Raise re_error else Ok (Py.isin query value).

Definition sample_ratio (a b : string) : float :=
  if String.eqb a b then 1%float else 0%float.

Definition sample_db : database :=
  [("knuth84", {[ "title" := "Literate (Programming)"; "entry_type" := "article" ]});
   ("lamport94", {[ "title" := "LaTeX"; "entry_type" := "book" ]})].


(** [all(p(c) for c in s)] *)
Fixpoint all_chars (p : ascii -> bool) (s : string) : bool :=
  match s with
  | EmptyString => true
  | String c s' => p c && all_chars p s'
  end.

(** The parser state after a field line has set [field] to [value]. *)
Definition with_field (st : parser) (field value : string) : parser :=
  {| parsed_entries := parsed_entries st; entry := <[field := value]> (entry st);
     key := key st; entry_type := entry_type st; inside_entry := inside_entry st |}.

(** The parser inside the entry [@article{k,], no field read yet. *)
Definition sample_open : parser :=
  {| parsed_entries := []; entry := ∅; key := Some "k";
     entry_type := Some "article"; inside_entry := true |}.

(** A schema of two entry types over five fields. *)
Definition sample_schema : schema :=
  {| entry_types :=
       {[ "article" := {| required := ["author"; "title"; "journal"; "year"];
                          optional := ["volume"];
                          description := "An article from a journal." |};
          "book" := {| required := ["author or editor"; "title"; "year"];
                       optional := [];
                       description := "A book with an explicit publisher." |} ]};
     fields := [("author", "The authors"); ("title", "The title");
                ("journal", "The journal"); ("year", "The year");
                ("volume", "The volume")] |}.

(** The form for a new entry on that schema, as opened. *)
Definition sample_form : form :=
  match entry_form_gui sample_schema [] add None None true with
  | Ok fm => fm
  | Raise _ => {| entry_type_var := ""; key_entry := None; widgets := ∅ |}
  end.

(** The text entered for a name: [""] where the form has no such widget. *)
Definition entered (ws : gmap string widget) (n : string) : string :=
  match ws !! n with
  | Some w => text w
  | None => ""
  end.

(** The names [save] checks: of each requirement the first alternative,
    trimmed, the key apart. *)
Definition required_names (required : list string) : list string :=
  List.filter (fun n => negb (String.eqb n "key"))
    (map (fun rf => Py.strip (flatten_required rf)) required).

(** The missing fields as the specification words them: the required names
    that are absent from the record or empty in it. *)
Definition validate_spec (record : entry_dict) (required : list string) : list string :=
  List.filter (fun n => match record !! n with
                        | Some v => negb (Py.truthy v)
                        | None => true
                        end) (required_names required).


(** The database file before the counterexample of the duplicate key: empty;
    the database in memory after a first imported entry was accepted. *)
Definition sample_imported : database :=
  [("k", {[ "title" := "Old"; "entry_type" := "article" ]})].

(** The widgets of a form on the fields title, journal and year, opened on
    the given record. *)
Definition widgets_of (record : entry_dict) : gmap string widget :=
  create_widgets (Some record) ["title"; "journal"; "year"] ∅.



(** A session on the sample schema: a book is entered after a volume was
    typed for an article; the volume is not a field of a book. *)
Definition sample_actions : list action :=
  [SetKey "knuth84"; SetField "title" "TeX"; SetField "volume" "3";
   SelectType "book"; SetField "year" "1984"].

Definition sample_saved : entry_dict :=
  {[ "title" := "TeX"; "year" := "1984"; "entry_type" := "book" ]}.

(** ** The round trip: what the renderer must be given *)

(** The entry restricted to the fields of the field order. *)
Definition restrict (e : entry_dict) (field_order : list string) : entry_dict :=
  filter (fun kv => kv.1 ∈ field_order) e.

(** No line feed and no carriage return. *)
Definition one_line (s : string) : Prop :=
  Py.char_in LF s = false ∧ Py.char_in CR s = false.

(** A key the header gives back: not empty, no surrounding whitespace, no
    comma, on one line. *)
Definition key_ok (k : string) : Prop :=
  k <> "" ∧ Py.strip k = k ∧ Py.char_in "," k = false ∧ one_line k.

(** An entry type the header gives back: no opening brace, on one line. *)
Definition type_ok (entry_type : string) : Prop :=
  Py.char_in "{" entry_type = false ∧ one_line entry_type.

(** A field name a field line gives back: no surrounding whitespace, in
    lower case, no equals sign, no at sign in front, on one line. *)
Definition field_ok (f : string) : Prop :=
  Py.strip f = f ∧ Py.lower f = f ∧ Py.char_in "=" f = false
  ∧ Py.startswith "@" f = false ∧ one_line f.

(** A value a field line gives back: no surrounding whitespace, no brace at
    either end, on one line. *)
Definition value_ok (v : string) : Prop :=
  Py.strip v = v ∧ Py.strip_chars "{}" v = v ∧ one_line v.

(** A field line up to its last brace, then [ending]: the comma, or nothing
    on the last line. *)
Definition field_line_with (ending f value : string) : string :=
  TAB ++ f ++ TAB ++ TAB ++ " = {" ++ value ++ "}" ++ ending.

(** The fields of the field order that the entry has, with their values, in
    the order of the field order. *)
Definition present (e : entry_dict) (field_order : list string) : list (string * string) :=
  flat_map (fun f => match e !! f with
                     | Some v => [(f, v)]
                     | None => []
                     end) field_order.

(** The parser inside an entry whose header gave the type and the key. *)
Definition opened (entry_type k : string) : parser :=
  {| parsed_entries := []; entry := ∅; key := Some k;
     entry_type := Some entry_type; inside_entry := true |}.

(** The line once trimmed: the tab in front goes, and, for an empty field
    name, the white space before the equals sign with it. *)
Definition trimmed_field_line (ending f v : string) : string :=
  match f with
  | "" => "= {" ++ v ++ "}" ++ ending
  | _ => f ++ TAB ++ TAB ++ " = {" ++ v ++ "}" ++ ending
  end.

(** A line renders a field and its value when it is their field line, with
    or without the comma. *)
Definition renders (line : string) (fv : string * string) : Prop :=
  exists ending, (ending = "" ∨ ending = ",") ∧ line = field_line_with ending fv.1 fv.2.

(** The entry that the field lines build up. *)
Definition insert_all (m : entry_dict) (pairs : list (string * string)) : entry_dict :=
  foldl (fun m fv => <[fv.1 := fv.2]> m) m pairs.

(** A key is held only together with an entry type. *)
Definition key_with_type (st : parser) : Prop :=
  is_Some (key st) -> is_Some (entry_type st).

(** An entry for the round trip, and one whose title is in braces. *)
Definition sample_entry : entry_dict :=
  {[ "title" := "The TeXbook"; "year" := "1984"; "note" := "second printing" ]}.

Definition braced_entry : entry_dict := {[ "title" := "{X}" ]}.

(** ** Further notions: what the parser gives back *)

(** A line that is empty once trimmed. *)
Definition blank_line (raw : string) : Prop := Py.strip raw = "".

(** A line that opens an entry, and a line that closes one: a brace in
    front and no equals sign, which inside an entry would make it a field
    line. *)
Definition header_line (raw : string) : bool := Py.startswith "@" (Py.strip raw).

Definition closing_line (raw : string) : bool :=
  Py.startswith "}" (Py.strip raw) && negb (Py.isin "=" (Py.strip raw)).

(** A field as the parser stores it: the name in lower case and trimmed, the
    value trimmed ([entry_type] apart, which is the header's text as it
    stands). *)
Definition field_normal (f v : string) : Prop :=
  Py.lower f = f ∧ Py.strip f = f ∧ (f <> "entry_type" -> Py.strip v = v).

(** A pair as the parser emits it. *)
Definition emitted_ok (kv : string * entry_dict) : Prop :=
  kv.1 <> "" ∧ Py.strip kv.1 = kv.1 ∧ Py.char_in "," kv.1 = false
  ∧ (exists et, kv.2 !! "entry_type" = Some et ∧ Py.char_in "{" et = false)
  ∧ forall f v, kv.2 !! f = Some v -> field_normal f v.

(** What the variables of the parser's loop satisfy after any lines. *)
Definition parser_inv (st : parser) : Prop :=
  Forall emitted_ok (parsed_entries st)
  ∧ (forall k, key st = Some k -> Py.strip k = k ∧ Py.char_in "," k = false)
  ∧ (forall et, entry_type st = Some et -> Py.char_in "{" et = false)
  ∧ (forall f v, entry st !! f = Some v ->
       Py.lower f = f ∧ Py.strip f = f ∧ Py.strip v = v)
  ∧ (is_Some (key st) -> is_Some (entry_type st))
  ∧ (inside_entry st = false ->
       entry st = ∅ ∧ key st = None ∧ entry_type st = None).

(** The parser's variables with the entries [done] put in front of the ones
    parsed so far. *)
Definition after_entries (done : list (string * entry_dict)) (st : parser) : parser :=
  {| parsed_entries := (done ++ parsed_entries st)%list; entry := entry st;
     key := key st; entry_type := entry_type st; inside_entry := inside_entry st |}.

(** ** Further notions: matching *)

(** The selected modes with one mode taken out. *)
Definition without_mode (m : string) (modes : list string) : list string :=
  List.filter (fun x => negb (String.eqb x m)) modes.

(** What the regex mode adds to the verdict: the outcome of [re.search]
    when the mode is selected, with [re.error] handled as no match. *)
Definition regex_part (re_search : string -> string -> result bool)
    (value query : string) (selected_matches : list string) : result bool :=
  if Py.mem "regex" selected_matches then
    match re_search query value with
    | Ok found => Ok found
    | Raise re_error => Ok false
    | Raise e => Raise e
    end
  else Ok false.

(** A result of the search without its preview. *)
Definition found_item (r : string * entry_dict * string) : string * entry_dict :=
  (r.1.1, r.1.2).

(** The second entry of the sample database. *)
Definition sample_db_entry : entry_dict :=
  {[ "title" := "LaTeX"; "entry_type" := "book" ]}.

(** ** Further notions: the form and the database *)

(** Every disabled widget is empty. *)
Definition disabled_empty (ws : gmap string widget) : Prop :=
  forall f w, ws !! f = Some w -> normal w = false -> text w = "".

(** [db.get(k)] on the items of the database. *)
Fixpoint db_get (k : string) (db : database) : option entry_dict :=
  match db with
  | [] => None
  | (k', v) :: db' => if String.eqb k k' then Some v else db_get k db'
  end.

(** [edit_entry_gui]: its [on_save].  The database file is loaded again; a
    new key that another entry holds is refused with an error box and
    nothing is written; otherwise the entry leaves its old key, should the
    key have changed ([del db2[key]] raises [KeyError] for a key that is not
    there), and is written at the new one.  The result says whether the
    file was written. *)
Definition edit_on_save (key new_key : string) (new_entry : entry_dict) (db2 : database)
    : result (bool * database) :=
  if negb (String.eqb new_key key) && db_mem new_key db2 then Ok (false, db2)
  else
    db2 ←
      (if negb (String.eqb new_key key)
       then if db_mem key db2 then Ok (db_del key db2) else Raise KeyError
       else Ok db2);
    Ok (true, db_set new_key new_entry db2).

(** [edit_entry_gui]: [None] when the key is not in the database ("Key not
    found"); otherwise the form opened on the entry, the user's actions, one
    press of the save button and, if [save] gets that far, [on_save]. *)
Definition edit_entry_gui (sch : schema) (field_order : list string) (key : string)
    (user : list action) (answer : bool) (db : database)
    : result (option save_outcome * database) :=
  if negb (db_mem key db) then Ok (None, db)
  else
    let BIB_FIELDS := load_bibtex_fields (map fst (fields sch)) field_order in
    fm0 ← entry_form_gui sch field_order edit (Some key) (db_get key db) true;
    fm ← acts sch BIB_FIELDS fm0 user;
    r ← save sch edit true (Some key) fm answer db;
    match r with
    | Saved new_key new_entry =>
        '(_, db') ← edit_on_save key new_key new_entry db;
        Ok (Some r, db')
    | _ => Ok (Some r, db)
    end.

(** The widgets of the sample form after a volume and a journal were typed
    and the type book was chosen, which has neither field. *)
Definition sample_book_widgets : gmap string widget :=
  {[ "author" := {| text := ""; normal := true |};
     "title" := {| text := ""; normal := true |};
     "journal" := {| text := ""; normal := false |};
     "year" := {| text := ""; normal := true |};
     "volume" := {| text := ""; normal := false |} ]}.

(** The first entry of the sample database edited: a new key and a year. *)
Definition sample_edited_entry : entry_dict :=
  {[ "title" := "Literate (Programming)"; "year" := "1986"; "entry_type" := "article" ]}.

Definition sample_edited : database :=
  [("lamport94", sample_db_entry); ("knuth86", sample_edited_entry)].

(** ** Further notions: the search, record by record *)






(** * Properties *)

(** ** The primitives on examples *)

Example strip_example : Py.strip "  a b	 " = "a b".
Proof. reflexivity. Qed.

Example strip_chars_example : Py.strip_chars "{}" "{{X}}" = "X".
Proof. reflexivity. Qed.

Example replace_example :
  Py.replace " or " "/" "author or editor or x" = "author/editor/x".
Proof. reflexivity. Qed.

Example first_name_and_or : first_name "chapter and/or pages" = "chapter and".
Proof. reflexivity. Qed.

Example flatten_required_and_or : flatten_required "chapter and/or pages" = "chapter".
Proof. reflexivity. Qed.

Example lower_example : Py.lower "AbC-d1" = "abc-d1".
Proof. reflexivity. Qed.

Example lower_char_latin1 : Py.lower_char (ascii_of_N 201) = ascii_of_N 233.
Proof. reflexivity. Qed.

Example file_lines_example :
  file_lines ("a" ++ String CR (String LF "b") ++ String LF "") = ["a"; "b"].
Proof. reflexivity. Qed.

(** The two entries of the specification's example. *)
Example parse_two_entries :
  parse_lines ["@article{k1,"; "  title = {Foo},"; "}";
               "@book{k2,"; "  author = {Bar},"; "}"]
  = [("k1", {[ "title" := "Foo"; "entry_type" := "article" ]});
     ("k2", {[ "author" := "Bar"; "entry_type" := "book" ]})].
Proof. by vm_compute. Qed.

(** A field line outside any entry gives no entry. *)
Example parse_field_outside : parse_lines ["title = {Foo},"] = [].
Proof. by vm_compute. Qed.

(** An entry that a new header follows is closed by it. *)
Example parse_unclosed_entry :
  parse_lines ["@article{k1,"; "title = {Foo},"; "@book{k2,"; "author = {Bar}"]
  = [("k1", {[ "title" := "Foo"; "entry_type" := "article" ]});
     ("k2", {[ "author" := "Bar"; "entry_type" := "book" ]})].
Proof. by vm_compute. Qed.

(** ** Strings *)

Lemma startswith_empty (s : string) : Py.startswith "" s = true.
Proof. by destruct s. Qed.

Lemma isin_empty (v : string) : Py.isin "" v = true.
Proof. destruct v; reflexivity. Qed.

Lemma lower_empty_iff (v : string) : Py.lower v = "" <-> v = "".
Proof. destruct v; simpl; split; congruence. Qed.

Lemma mem_In (x : string) (l : list string) : Py.mem x l = true <-> In x l.
Proof.
  unfold Py.mem. rewrite existsb_exists. split.
  - intros (y & Hy & Heq). apply String.eqb_eq in Heq. by subst.
  - intros Hx. exists x. split; [done | apply String.eqb_refl].
Qed.

Lemma mem_elem_of (x : string) (l : list string) : Py.mem x l = true <-> x ∈ l.
Proof. rewrite mem_In. symmetry. apply list_elem_of_In. Qed.

Lemma mem_false_iff (x : string) (l : list string) : Py.mem x l = false <-> x ∉ l.
Proof.
  rewrite <- mem_elem_of. destruct (Py.mem x l); split; congruence.
Qed.

(** *** Concatenation *)

Lemma sapp_cons (c : ascii) (s t : string) : String c s ++ t = String c (s ++ t).
Proof. reflexivity. Qed.

Lemma sapp_nil_l (s : string) : "" ++ s = s.
Proof. reflexivity. Qed.

Lemma sapp_nil_r (s : string) : s ++ "" = s.
Proof. induction s as [|c s IH]; [done|]. by rewrite sapp_cons, IH. Qed.

Lemma sapp_assoc (s t u : string) : (s ++ t) ++ u = s ++ t ++ u.
Proof. induction s as [|c s IH]; [done|]. by rewrite !sapp_cons, IH. Qed.

Lemma sapp_length (s t : string) :
  String.length (s ++ t) = String.length s + String.length t.
Proof. induction s as [|c s IH]; [done|]. rewrite sapp_cons. simpl. by rewrite IH. Qed.

Lemma sapp_eq_nil (s t : string) : s ++ t = "" -> s = "" ∧ t = "".
Proof. destruct s; [done|]. by rewrite sapp_cons. Qed.

Lemma length_zero (s : string) : String.length s = 0 -> s = "".
Proof. by destruct s. Qed.

(** *** Occurrences of a character *)

Lemma char_in_app (c : ascii) (s t : string) :
  Py.char_in c (s ++ t) = Py.char_in c s || Py.char_in c t.
Proof.
  induction s as [|d s IH]; [done|]. rewrite sapp_cons. simpl.
  by rewrite IH, orb_assoc.
Qed.

(** *** Stripping *)

Section Strip.

Variable p : ascii -> bool.

Lemma lstrip_by_suffix (s : string) : exists pre, s = pre ++ Py.lstrip_by p s.
Proof.
  induction s as [|c s [pre IH]]; [by exists ""|]. simpl.
  destruct (p c).
  - exists (String c pre). by rewrite sapp_cons, <- IH.
  - by exists "".
Qed.

Lemma rstrip_by_prefix (s : string) : exists suf, s = Py.rstrip_by p s ++ suf.
Proof.
  induction s as [|c s [suf IH]]; [by exists ""|]. simpl.
  destruct (Py.rstrip_by p s) as [|d r] eqn:Hr.
  - destruct (p c).
    + by exists (String c s).
    + exists s. by rewrite sapp_cons.
  - exists suf. by rewrite sapp_cons, <- IH.
Qed.

(** A string that [strip] leaves alone is left alone from either side. *)
Lemma strip_by_fixed (s : string) :
  Py.strip_by p s = s -> Py.lstrip_by p s = s ∧ Py.rstrip_by p s = s.
Proof.
  unfold Py.strip_by. intros Hfix.
  destruct (lstrip_by_suffix s) as [pre Hpre].
  destruct (rstrip_by_prefix (Py.lstrip_by p s)) as [suf Hsuf].
  assert (Hlen : String.length pre + String.length suf = 0).
  { apply (f_equal String.length) in Hpre, Hsuf.
    rewrite sapp_length in Hpre, Hsuf. rewrite Hfix in Hsuf. lia. }
  assert (pre = "") as -> by (apply length_zero; lia).
  rewrite sapp_nil_l in Hpre. rewrite <- Hpre in *. done.
Qed.

Lemma lstrip_by_keep (c : ascii) (s : string) :
  p c = false -> Py.lstrip_by p (String c s) = String c s.
Proof. intros H. simpl. by rewrite H. Qed.

Lemma lstrip_by_app (s t : string) :
  Py.lstrip_by p (s ++ t)
  = match Py.lstrip_by p s with
    | "" => Py.lstrip_by p t
    | r => r ++ t
    end.
Proof.
  induction s as [|c s IH]; [reflexivity|].
  rewrite sapp_cons. simpl. destruct (p c); [done|]. by rewrite sapp_cons.
Qed.

Lemma rstrip_by_app (s t : string) :
  Py.rstrip_by p (s ++ t)
  = match Py.rstrip_by p t with
    | "" => Py.rstrip_by p s
    | r => s ++ r
    end.
Proof.
  induction s as [|c s IH].
  - rewrite sapp_nil_l. by destruct (Py.rstrip_by p t).
  - rewrite sapp_cons. simpl. rewrite IH.
    destruct (Py.rstrip_by p t) as [|d r]; [done|].
    rewrite sapp_cons. destruct s; reflexivity.
Qed.

Lemma rstrip_by_app_keep (s t : string) :
  Py.rstrip_by p t <> "" -> Py.rstrip_by p (s ++ t) = s ++ Py.rstrip_by p t.
Proof. intros H. rewrite rstrip_by_app. by destruct (Py.rstrip_by p t). Qed.

Lemma rstrip_by_cons_keep (c : ascii) (s : string) :
  p c = false -> Py.rstrip_by p (String c s) = String c (Py.rstrip_by p s).
Proof. intros H. simpl. rewrite H. by destruct (Py.rstrip_by p s). Qed.

(** A string that ends in a character that is kept is left alone. *)
Lemma rstrip_by_end (s : string) (c : ascii) :
  p c = false -> Py.rstrip_by p (s ++ String c "") = s ++ String c "".
Proof. intros H. rewrite rstrip_by_app. simpl. by rewrite H. Qed.

Lemma rstrip_by_drop (s : string) (c : ascii) :
  p c = true -> Py.rstrip_by p (s ++ String c "") = Py.rstrip_by p s.
Proof. intros H. rewrite rstrip_by_app. simpl. by rewrite H. Qed.

Lemma char_in_rstrip_by (c : ascii) (s : string) :
  Py.char_in c s = false -> Py.char_in c (Py.rstrip_by p s) = false.
Proof.
  intros H. destruct (rstrip_by_prefix s) as [suf Hsuf].
  rewrite Hsuf, char_in_app in H. by apply orb_false_iff in H as [H _].
Qed.

End Strip.

(** ** Loading the field list *)

Lemma filter_unlisted_empty (registry field_order : list string) :
  List.filter (fun f => negb (Py.mem f field_order))
    (List.filter (fun f => Py.mem f registry) field_order) = [].
Proof.
  assert (Hgen : forall l : list string,
    (forall x, In x l -> In x field_order) ->
    List.filter (fun f => negb (Py.mem f field_order)) l = []).
  { induction l as [|x l IH]; intros Hl; [done|]. simpl.
    assert (Hx : Py.mem x field_order = true) by (apply mem_In, Hl; by left).
    rewrite Hx. simpl. apply IH. intros y Hy. apply Hl. by right. }
  apply Hgen. intros x Hx. apply filter_In in Hx. tauto.
Qed.

(** With a non-empty [field_order], the second comprehension of
    [load_bibtex_fields] reads the list the first one has just overwritten,
    and so adds nothing. *)
Lemma load_bibtex_fields_listed_only (registry field_order : list string) :
  field_order <> [] ->
  load_bibtex_fields registry field_order
  = dedupe_from ∅ (List.filter (fun f => Py.mem f registry) field_order).
Proof.
  intros Hne. unfold load_bibtex_fields. destruct field_order as [|x l]; [done|].
  rewrite filter_unlisted_empty. by rewrite app_nil_r.
Qed.

Lemma dedupe_from_elem (seen : gset string) (l : list string) (x : string) :
  x ∈ dedupe_from seen l <-> x ∈ l ∧ x ∉ seen.
Proof.
  revert seen. induction l as [|y l IH]; intros seen; simpl.
  - set_solver.
  - destruct (decide (y ∈ seen)) as [Hy|Hy].
    + rewrite IH. set_solver.
    + rewrite elem_of_cons, IH. destruct (decide (x = y)); set_solver.
Qed.

Lemma dedupe_from_NoDup (seen : gset string) (l : list string) :
  NoDup (dedupe_from seen l).
Proof.
  revert seen. induction l as [|y l IH]; intros seen; simpl.
  - constructor.
  - destruct (decide (y ∈ seen)); [apply IH|].
    constructor; [|apply IH]. rewrite dedupe_from_elem. set_solver.
Qed.

(** C3, the part that holds: the loaded list has no duplicates, and with a
    non-empty [field_order] its members are the registered fields that
    [field_order] names. *)
Lemma load_bibtex_fields_members (registry field_order : list string) (x : string) :
  field_order <> [] ->
  x ∈ load_bibtex_fields registry field_order <-> x ∈ field_order ∧ x ∈ registry.
Proof.
  intros Hne. rewrite load_bibtex_fields_listed_only by done.
  rewrite dedupe_from_elem, list_elem_of_In, filter_In, mem_In.
  rewrite <- !list_elem_of_In. set_solver.
Qed.

(** C3: with the registered fields author, title, year and the persisted
    order [title], the field list loaded is [title] alone; the registered
    fields that the order does not name are dropped, where the claim appends
    them: title, author, year. *)
Theorem load_bibtex_fields_drops_unlisted :
  load_bibtex_fields ["author"; "title"; "year"] ["title"] = ["title"]
  ∧ canonical_fields_spec ["author"; "title"; "year"] ["title"]
    = ["title"; "author"; "year"].
Proof. split; by vm_compute. Qed.

(** ** Matching *)

Lemma try_regex_error re_search (q v : string) (matched : bool) :
  re_search q v = Raise re_error -> try_regex re_search q v matched = Ok matched.
Proof. intros H. unfold try_regex. by rewrite H. Qed.

Lemma try_regex_returns re_search (q v : string) (matched : bool) :
  (forall e, re_search q v = Raise e -> e = re_error) ->
  exists b, try_regex re_search q v matched = Ok b.
Proof.
  intros Hre. unfold try_regex. destruct (re_search q v) as [found|e] eqn:Hs.
  - eauto.
  - rewrite (Hre e eq_refl). eauto.
Qed.

Lemma try_regex_raises re_search (q v : string) (matched : bool) (e : exn) :
  try_regex re_search q v matched = Raise e -> re_search q v = Raise e ∧ e <> re_error.
Proof.
  unfold try_regex. destruct (re_search q v) as [found|[]]; try done.
  all: intros [= <-]; done.
Qed.

(** The modes other than regex. *)
Lemma mem_without_regex (x : string) (modes : list string) :
  x <> "regex" -> Py.mem x (without_regex modes) = Py.mem x modes.
Proof.
  intros Hx. apply Bool.eq_true_iff_eq. rewrite !mem_In. unfold without_regex.
  rewrite filter_In. split; [tauto|]. intros Hin. split; [done|].
  apply negb_true_iff. by apply String.eqb_neq.
Qed.

Lemma mem_regex_without_regex (modes : list string) :
  Py.mem "regex" (without_regex modes) = false.
Proof.
  apply mem_false_iff. rewrite list_elem_of_In. unfold without_regex.
  rewrite filter_In. intros [_ H]. by rewrite String.eqb_refl in H.
Qed.

Lemma literal_match_without_regex (v q : string) (modes : list string) :
  literal_match v q (without_regex modes) = literal_match v q modes.
Proof. unfold literal_match. by rewrite !mem_without_regex. Qed.

Section MatchingFacts.

Variable re_search : string -> string -> result bool.
Variable ratio : string -> string -> float.

(** [matches] in one equation: the literal modes, then the regex mode inside
    its handler, then the fuzzy mode, which alone sets the preview. *)
Lemma matches_unfold value query selected_matches fuzzy_sensitivity :
  matches re_search ratio value query selected_matches fuzzy_sensitivity
  = (matched ←
       (if Py.mem "regex" selected_matches
        then try_regex re_search query value (literal_match value query selected_matches)
        else Ok (literal_match value query selected_matches));
     Ok (if Py.mem "fuzzy" selected_matches && fuzzy_holds ratio value query fuzzy_sensitivity
         then (true, value) else (matched, ""))).
Proof.
  unfold matches, literal_match, fuzzy_holds.
  assert (Hlit : forall a b c d : bool,
    (if a && b then true else if c && d then true else false) = (a && b || c && d)).
  { by intros [] [] [] []. }
  rewrite !Hlit.
  destruct (Py.mem "case-sensitive" selected_matches);
    destruct (Py.mem "regex" selected_matches); simpl;
    try (destruct (try_regex _ _ _ _); simpl; [|done]);
    destruct (Py.mem "fuzzy" selected_matches); simpl; try done;
    by destruct (PrimFloat.leb _ _).
Qed.

(** C5: with only the contains mode an empty query matches every value; with
    only the exact mode it matches the empty value and no other; with no mode
    nothing matches. *)
Theorem matches_edge_cases (v q : string) (t : float) :
  matches re_search ratio v "" ["contains"] t = Ok (true, "")
  ∧ (exists b : bool,
       matches re_search ratio v "" ["exact"] t = Ok (b, "") ∧ (b = true <-> v = ""))
  ∧ matches re_search ratio v q [] t = Ok (false, "").
Proof.
  rewrite !matches_unfold. unfold literal_match. cbn.
  rewrite isin_empty. repeat split.
  - exists (String.eqb (Py.lower v) ""). split.
    + by rewrite orb_false_r.
    + rewrite String.eqb_eq. apply lower_empty_iff.
Qed.

(** C4: with only the fuzzy mode, [matches] returns, and its verdict is true
    exactly when the similarity of the lowercased value and query is at least
    the threshold, the threshold itself included.  Under any modes, a run that
    returns gives the verdict true and the value as preview when the fuzzy
    mode is on and its test holds, and the empty preview otherwise; a run
    raises only what [re.search] raised in the regex mode, other than
    [re.error]. *)
Theorem fuzzy_match_and_preview (v q : string) (t : float) :
  (exists (b : bool) (p : string), matches re_search ratio v q ["fuzzy"] t = Ok (b, p)
     ∧ (b = true <-> PrimFloat.leb t (ratio (Py.lower v) (Py.lower q)) = true))
  ∧ (forall modes : list string,
       match matches re_search ratio v q modes t with
       | Ok (b, p) =>
           if Py.mem "fuzzy" modes && fuzzy_holds ratio v q t
           then b = true ∧ p = v
           else p = ""
       | Raise e =>
           Py.mem "regex" modes = true ∧ re_search q v = Raise e ∧ e <> re_error
       end).
Proof.
  split.
  - rewrite matches_unfold. unfold literal_match, fuzzy_holds. cbn.
    destruct (PrimFloat.leb t _) eqn:Hle.
    + exists true, v. by split.
    + exists false, "". split; [done | split; congruence].
  - intros modes. rewrite matches_unfold.
    destruct (Py.mem "regex" modes) eqn:Hre.
    + destruct (try_regex _ _ _ _) as [m|e] eqn:Ht; simpl.
      * by destruct (Py.mem "fuzzy" modes && fuzzy_holds ratio v q t).
      * split; [done|]. by apply try_regex_raises in Ht.
    + simpl. by destruct (Py.mem "fuzzy" modes && fuzzy_holds ratio v q t).
Qed.

Hypothesis re_search_raises_re_error :
  forall (q v : string) (e : exn), re_search q v = Raise e -> e = re_error.

Lemma matches_returns (v q : string) (modes : list string) (t : float) :
  exists r, matches re_search ratio v q modes t = Ok r.
Proof.
  rewrite matches_unfold. destruct (Py.mem "regex" modes); simpl; [|eauto].
  destruct (try_regex_returns re_search q v (literal_match v q modes)) as [b ->].
  { apply re_search_raises_re_error. }
  simpl. eauto.
Qed.

Lemma search_returns db field q modes t :
  exists results, search re_search ratio db field q modes t = Ok results.
Proof.
  induction db as [|[k e] db [results IH]]; simpl; [eauto|].
  destruct (matches_returns (default "" (e !! field)) q modes t) as [[m p] ->].
  simpl. rewrite IH. simpl. eauto.
Qed.

Lemma matches_invalid_pattern (v q : string) (modes : list string) (t : float) :
  re_search q v = Raise re_error ->
  matches re_search ratio v q modes t = matches re_search ratio v q (without_regex modes) t.
Proof.
  intros Herr. rewrite !matches_unfold.
  rewrite mem_regex_without_regex, literal_match_without_regex.
  rewrite (mem_without_regex "fuzzy") by done.
  destruct (Py.mem "regex" modes); [|done].
  by rewrite try_regex_error.
Qed.

End MatchingFacts.

(** ** Rendering an entry *)







(** ** The parser *)

(** *** Splitting at the first occurrence of a character *)

Lemma isin_char (c : ascii) (s : string) :
  Py.isin (String c "") s = Py.char_in c s.
Proof.
  induction s as [|a s IH]; [done|]. simpl. rewrite IH.
  by rewrite ?startswith_empty, andb_true_r.
Qed.

Lemma split1_Some (c : ascii) (s l r : string) :
  Py.split1 c s = Some (l, r) -> s = l ++ String c r ∧ Py.char_in c l = false.
Proof.
  revert l. induction s as [|a s IH]; intros l; [done|]. simpl.
  destruct (Ascii.eqb a c) eqn:Hac.
  - intros [= <- <-]. apply Ascii.eqb_eq in Hac. by subst.
  - destruct (Py.split1 c s) as [[l' r']|]; [|done]. intros [= <- <-].
    destruct (IH l' eq_refl) as [-> Hl]. split; [done|]. simpl.
    by rewrite Ascii.eqb_sym, Hac.
Qed.

Lemma split1_app (c : ascii) (l r : string) :
  Py.char_in c l = false -> Py.split1 c (l ++ String c r) = Some (l, r).
Proof.
  induction l as [|a l IH]; simpl.
  - intros _. by rewrite Ascii.eqb_refl.
  - intros [Hac Hl]%orb_false_iff.
    rewrite Ascii.eqb_sym, Hac. by rewrite IH.
Qed.

Lemma split1_is_Some (c : ascii) (s : string) :
  Py.char_in c s = true -> exists l r, Py.split1 c s = Some (l, r).
Proof.
  induction s as [|a s IH]; [done|]. simpl. rewrite (Ascii.eqb_sym c a).
  destruct (Ascii.eqb a c); [eauto|]. simpl. intros H.
  destruct (IH H) as (l & r & ->). eauto.
Qed.

Lemma split_head_app (c : ascii) (l r : string) :
  Py.char_in c l = false -> Py.split_head (String c "") (l ++ String c r) = l.
Proof.
  induction l as [|a l IH]; simpl.
  - intros _. by rewrite Ascii.eqb_refl.
  - intros [Hac Hl]%orb_false_iff.
    rewrite Hac. simpl. by rewrite IH.
Qed.

Lemma char_in_truthy (c : ascii) (s : string) : Py.char_in c s = true -> Py.truthy s = true.
Proof. by destruct s. Qed.

(** *** What [strip] removes *)

Lemma lstrip_by_removed (p : ascii -> bool) (s : string) :
  exists pre, s = pre ++ Py.lstrip_by p s ∧ all_chars p pre = true.
Proof.
  induction s as [|c s (pre & IH & Hall)]; [by exists ""|]. simpl.
  destruct (p c) eqn:Hc.
  - exists (String c pre). rewrite sapp_cons, <- IH. simpl. by rewrite Hc.
  - by exists "".
Qed.

Lemma rstrip_by_removed (p : ascii -> bool) (s : string) :
  exists suf, s = Py.rstrip_by p s ++ suf ∧ all_chars p suf = true.
Proof.
  induction s as [|c s (suf & IH & Hall)]; [by exists ""|]. simpl.
  destruct (Py.rstrip_by p s) as [|d r] eqn:Hr.
  - rewrite sapp_nil_l in IH. subst suf. destruct (p c) eqn:Hc.
    + exists (String c s). simpl. by rewrite Hc.
    + exists s. by rewrite sapp_cons.
  - exists suf. by rewrite sapp_cons, <- IH.
Qed.

(** [strip] with a set of characters takes off every leading and every
    trailing character of the set, however many there are. *)
Lemma strip_by_removed (p : ascii -> bool) (s : string) :
  exists pre suf, s = pre ++ Py.strip_by p s ++ suf
    ∧ all_chars p pre = true ∧ all_chars p suf = true.
Proof.
  destruct (lstrip_by_removed p s) as (pre & Hpre & Hp).
  destruct (rstrip_by_removed p (Py.lstrip_by p s)) as (suf & Hsuf & Hs).
  exists pre, suf. unfold Py.strip_by. by rewrite <- Hsuf, <- Hpre.
Qed.

(** C2, amended: inside an entry, a line that has an equals sign and, once
    trimmed, does not begin with an at sign is split at its first equals
    sign; the field name is the left part trimmed and lowercased; the value
    is the right part trimmed of whitespace, then of all its leading and
    trailing commas, then of all its leading and trailing braces, then of
    whitespace again. *)
Theorem field_line_parsed (st : parser) (raw : string) :
  inside_entry st = true ->
  Py.startswith "@" (Py.strip raw) = false ->
  Py.isin "=" (Py.strip raw) = true ->
  exists name rhs : string,
    Py.strip raw = name ++ "=" ++ rhs
    ∧ Py.char_in "=" name = false
    ∧ parse_line st raw
      = with_field st (Py.lower (Py.strip name))
          (Py.strip (Py.strip_chars "{}" (Py.strip_chars "," (Py.strip rhs)))).
Proof.
  intros Hin Hat Heq. rewrite isin_char in Heq.
  destruct (split1_is_Some _ _ Heq) as (name & rhs & Hsplit).
  exists name, rhs. destruct (split1_Some _ _ _ _ Hsplit) as [Hline Hname].
  split; [done|]. split; [done|].
  unfold parse_line, parse_field, with_field.
  rewrite (char_in_truthy _ _ Heq), Hat, Hin, isin_char, Heq, Hsplit.
  reflexivity.
Qed.

Lemma field_line_parsed_witness :
  exists name rhs : string,
    Py.strip "  Title = {{X}},, " = name ++ "=" ++ rhs
    ∧ Py.char_in "=" name = false
    ∧ parse_line sample_open "  Title = {{X}},, "
      = with_field sample_open (Py.lower (Py.strip name))
          (Py.strip (Py.strip_chars "{}" (Py.strip_chars "," (Py.strip rhs)))).
Proof.
  apply (field_line_parsed sample_open "  Title = {{X}},, "); reflexivity.
Defined.

(** C2 as stated fails on its own example: from the right-hand side
    [{{X}},] both layers of braces go, and the value is [X]. *)
Lemma field_line_parsed_counterexample :
  parse_field "title = {{X}}," = Ok ("title", "X")
  ∧ parse_lines ["@article{k,"; "title = {{X}},"; "}"]
    = [("k", {[ "title" := "X"; "entry_type" := "article" ]})]
  ∧ String.eqb "X" "{X}" = false.
Proof. repeat split; by vm_compute. Qed.

(** ** The form: saving *)

Lemma truthy_false_iff (s : string) : Py.truthy s = false <-> s = "".
Proof. by destruct s. Qed.

Lemma truthy_true_iff (s : string) : Py.truthy s = true <-> s <> "".
Proof. by destruct s. Qed.

(** Whatever [save] ends in other than the call of [on_save], the store is
    as it was. *)
Lemma press_save_rejected {S : Type} sch mode show_key key
    (on_save : string -> entry_dict -> S -> S) fm answer db store r store' :
  press_save sch mode show_key key on_save fm answer db store = Ok (r, store') ->
  (forall k e, r <> Saved k e) -> store' = store.
Proof.
  unfold press_save. destruct (save _ _ _ _ _ _ _) as [r0|]; [|done].
  simpl. intros [= <- <-] Hr. destruct r0; try done. by destruct (Hr new_key new_entry).
Qed.

(** C6, amended: in add mode with the key box shown, when the entry type is
    registered and not empty, every required name has a widget, and the
    trimmed key is not empty and is a key of the database file, the save ends
    in the error "Key already exists"; [on_save] is not called and the store
    is as it was. *)
Theorem duplicate_key_rejected {S : Type} (sch : schema) (key : option string)
    (on_save : string -> entry_dict -> S -> S) (fm : form) (answer : bool)
    (db : database) (store : S) (info : entry_type_info) (missing : list string) :
  entry_types sch !! Py.strip (entry_type_var fm) = Some info ->
  missing_loop (widgets fm) (map flatten_required (required info)) = Ok missing ->
  Py.strip (entry_type_var fm) <> "" ->
  new_key_of fm key <> "" ->
  db_mem (new_key_of fm key) db = true ->
  press_save sch add true key on_save fm answer db store
  = Ok (ShowError "Key already exists", store).
Proof.
  intros Hinfo Hmissing Htype Hkey Hdup.
  unfold press_save, save, getitem. rewrite Hinfo. simpl. rewrite Hmissing. simpl.
  apply truthy_true_iff in Htype, Hkey. rewrite Htype, Hkey, Hdup. reflexivity.
Qed.

Lemma duplicate_key_rejected_witness :
  press_save sample_schema add true None add_on_save
    {| entry_type_var := "article"; key_entry := Some " k ";
       widgets := widgets sample_form |} true sample_imported sample_imported
  = Ok (ShowError "Key already exists", sample_imported).
Proof.
  apply (duplicate_key_rejected sample_schema None add_on_save
           {| entry_type_var := "article"; key_entry := Some " k ";
              widgets := widgets sample_form |} true sample_imported sample_imported
           {| required := ["author"; "title"; "journal"; "year"];
              optional := ["volume"];
              description := "An article from a journal." |}
           ["author"; "title"; "journal"; "year"]).
  - by vm_compute.
  - by vm_compute.
  - by vm_compute.
  - by vm_compute.
  - by vm_compute.
Defined.

(** C6 as stated fails in the review of imported entries, which saves in add
    mode: the key k is in the store (the database in memory, where a first
    imported entry was accepted) but not yet in the file that [save] reads,
    the user confirms, and the entry at k is replaced. *)
Lemma duplicate_key_rejected_counterexample :
  db_mem "k" sample_imported = true
  ∧ review_entry sample_schema [] (fun _ => true) (fun _ => true)
      "k" {[ "title" := "New"; "entry_type" := "article" ]}
      [SetKey "k"] true [] sample_imported
    = Ok (Saved "k" {[ "title" := "New"; "entry_type" := "article" ]},
          [("k", {[ "title" := "New"; "entry_type" := "article" ]})]).
Proof. split; by vm_compute. Qed.

(** ** The form: missing required fields *)

Lemma missing_loop_names (ws : gmap string widget) (required : list string) :
  (forall n, n ∈ required_names required -> is_Some (ws !! n)) ->
  missing_loop ws (map flatten_required required)
  = Ok (List.filter (fun n => negb (Py.truthy (Py.strip (entered ws n))))
          (required_names required)).
Proof.
  unfold required_names.
  induction required as [|rf l IH]; intros Hws; [done|]. simpl in *.
  destruct (String.eqb (Py.strip (flatten_required rf)) "key") eqn:Hkey; simpl in *.
  - apply IH, Hws.
  - destruct (Hws (Py.strip (flatten_required rf))) as [w Hw]; [by left|].
    unfold getitem, entered. rewrite Hw. simpl.
    rewrite IH by (intros n Hn; apply Hws; by right). simpl.
    by destruct (Py.truthy (Py.strip (text w))).
Qed.

(** C8, amended: when every required name (of each requirement the first
    alternative, trimmed, the key apart) has a widget in the form, the list
    [missing] is the list of the required names, in the order of the
    requirements and as often as they are required, whose entered text is
    empty once trimmed: a name is missing exactly when its text is empty or
    all whitespace. *)
Theorem missing_required_fields (ws : gmap string widget) (required : list string) :
  (forall n, n ∈ required_names required -> is_Some (ws !! n)) ->
  missing_loop ws (map flatten_required required)
  = Ok (List.filter (fun n => negb (Py.truthy (Py.strip (entered ws n))))
          (required_names required))
  ∧ forall n,
      n ∈ List.filter (fun n => negb (Py.truthy (Py.strip (entered ws n))))
            (required_names required)
      <-> n ∈ required_names required ∧ Py.strip (entered ws n) = "".
Proof.
  intros Hws. split; [by apply missing_loop_names|].
  intros n. rewrite list_elem_of_In, filter_In, <- list_elem_of_In.
  by rewrite negb_true_iff, truthy_false_iff.
Qed.

(** The example of the claim: a form on title, journal and year opened on
    the record with the title X alone, for a type that requires the three;
    the journal and the year are missing, in that order. *)
Lemma missing_required_fields_witness :
  missing_loop (widgets_of {[ "title" := "X" ]})
    (map flatten_required ["title"; "journal"; "year"])
  = Ok ["journal"; "year"]
  ∧ forall n,
      n ∈ ["journal"; "year"]
      <-> n ∈ required_names ["title"; "journal"; "year"]
          ∧ Py.strip (entered (widgets_of {[ "title" := "X" ]}) n) = "".
Proof.
  assert (Hws : forall n, n ∈ required_names ["title"; "journal"; "year"] ->
                  is_Some (widgets_of {[ "title" := "X" ]} !! n)).
  { intros n Hn.
    change (required_names ["title"; "journal"; "year"])
      with ["title"; "journal"; "year"] in Hn.
    apply elem_of_cons in Hn as [->|Hn]; [eexists; reflexivity|].
    apply elem_of_cons in Hn as [->|Hn]; [eexists; reflexivity|].
    apply elem_of_cons in Hn as [->|Hn]; [eexists; reflexivity|].
    by apply elem_of_nil in Hn. }
  pose proof (missing_required_fields (widgets_of {[ "title" := "X" ]})
                ["title"; "journal"; "year"] Hws) as Hmissing.
  assert (Hlist : List.filter
                    (fun n => negb (Py.truthy (Py.strip
                                 (entered (widgets_of {[ "title" := "X" ]}) n))))
                    (required_names ["title"; "journal"; "year"])
                  = ["journal"; "year"]) by reflexivity.
  rewrite Hlist in Hmissing. exact Hmissing.
Defined.

Example missing_article_example :
  missing_loop (widgets_of {[ "title" := "X" ]})
    (map flatten_required ["title"; "journal"; "year"]) = Ok ["journal"; "year"].
Proof. by vm_compute. Qed.

(** C8 as stated fails for a text of whitespace: a title that is one space
    is present in the record and is not empty, and [save] lists it as
    missing. *)
Lemma missing_required_fields_counterexample :
  missing_loop (widgets_of {[ "title" := " "; "journal" := "J"; "year" := "1984" ]})
    (map flatten_required ["title"; "journal"; "year"]) = Ok ["title"]
  ∧ validate_spec {[ "title" := " "; "journal" := "J"; "year" := "1984" ]}
      ["title"; "journal"; "year"] = [].
Proof. split; by vm_compute. Qed.

(** ** The form: what is saved *)













(** ** The round trip *)

(** *** Reading lines back from the joined text *)

Lemma universal_newlines_id (s : string) :
  Py.char_in CR s = false -> universal_newlines s = s.
Proof.
  induction s as [|c s IH]; [done|]. cbn [universal_newlines Py.char_in].
  intros [Hc Hs]%orb_false_iff. rewrite Ascii.eqb_sym, Hc. by rewrite IH.
Qed.

Lemma split_lf_line (x : string) : Py.char_in LF x = false -> split_lf x = [x].
Proof.
  induction x as [|c x IH]; [done|]. cbn [split_lf Py.char_in].
  intros [Hc Hx]%orb_false_iff. rewrite Ascii.eqb_sym, Hc. by rewrite IH.
Qed.

Lemma split_lf_app (x rest : string) :
  Py.char_in LF x = false -> split_lf (x ++ String LF rest) = x :: split_lf rest.
Proof.
  induction x as [|c x IH].
  - intros _. rewrite sapp_nil_l. cbn [split_lf]. by rewrite Ascii.eqb_refl.
  - rewrite sapp_cons. cbn [split_lf Py.char_in].
    intros [Hc Hx]%orb_false_iff. rewrite Ascii.eqb_sym, Hc. by rewrite IH.
Qed.

Lemma join_cons (sep x y : string) (l : list string) :
  Py.join sep (x :: y :: l) = x ++ sep ++ Py.join sep (y :: l).
Proof. reflexivity. Qed.

Lemma split_lf_join (lines : list string) :
  lines <> [] -> Forall one_line lines ->
  split_lf (Py.join (String LF "") lines) = lines.
Proof.
  induction lines as [|x [|y l] IH]; intros Hne Hall; [done|..].
  - simpl. apply split_lf_line. by inversion Hall as [|?? [? ?]].
  - rewrite join_cons. inversion Hall as [|?? [Hx _] Hrest]; subst.
    change (x ++ String LF "" ++ Py.join (String LF "") (y :: l))
      with (x ++ String LF (Py.join (String LF "") (y :: l))).
    rewrite split_lf_app by done. by rewrite IH.
Qed.

Lemma join_no_cr (lines : list string) :
  Forall one_line lines -> Py.char_in CR (Py.join (String LF "") lines) = false.
Proof.
  induction lines as [|x [|y l] IH]; intros Hall; [done|..].
  - simpl. by inversion Hall as [|?? [? ?]].
  - rewrite join_cons, !char_in_app. inversion Hall as [|?? [_ Hx] Hrest]; subst.
    rewrite Hx, IH by done. reflexivity.
Qed.

Lemma drop_empty_last_snoc (l : list string) (x : string) :
  Py.truthy x = true -> drop_empty_last (l ++ [x])%list = (l ++ [x])%list.
Proof.
  intros Hx. induction l as [|y l IH]; simpl; [by rewrite Hx|].
  rewrite IH. by destruct (l ++ [x])%list eqn:Heq; [destruct l|].
Qed.

(** The lines of a file that holds the joined text are the lines joined. *)
Lemma file_lines_join (l : list string) (x : string) :
  Forall one_line (l ++ [x])%list -> Py.truthy x = true ->
  file_lines (Py.join (String LF "") (l ++ [x])%list) = (l ++ [x])%list.
Proof.
  intros Hall Hx. unfold file_lines.
  rewrite universal_newlines_id by by apply join_no_cr.
  rewrite split_lf_join; [by apply drop_empty_last_snoc | by destruct l | done].
Qed.

(** *** Strings that [strip] leaves alone *)

Lemma sapp_ne_r (s t : string) : t <> "" -> s ++ t <> "".
Proof. intros Ht [_ H]%sapp_eq_nil. done. Qed.

Lemma sapp_ne_l (s t : string) : s <> "" -> s ++ t <> "".
Proof. intros Hs [H _]%sapp_eq_nil. done. Qed.

Lemma rstrip_by_app_to (p : ascii -> bool) (s t r : string) :
  Py.rstrip_by p t = r -> r <> "" -> Py.rstrip_by p (s ++ t) = s ++ r.
Proof. intros <- Hr. by apply rstrip_by_app_keep. Qed.

Lemma lstrip_by_app_keep (p : ascii -> bool) (s t : string) :
  Py.lstrip_by p s = s -> s <> "" -> Py.lstrip_by p (s ++ t) = s ++ t.
Proof. intros Hs Hne. rewrite lstrip_by_app, Hs. by destruct s. Qed.

Lemma lstrip_by_fixed_head (p : ascii -> bool) (c : ascii) (s : string) :
  Py.lstrip_by p (String c s) = String c s -> p c = false.
Proof.
  simpl. destruct (p c); [|done]. intros H.
  destruct (lstrip_by_suffix p s) as [pre Hpre]. rewrite H in Hpre.
  apply (f_equal String.length) in Hpre. rewrite sapp_length in Hpre. simpl in Hpre. lia.
Qed.

Lemma strip_by_both (p : ascii -> bool) (s : string) :
  Py.lstrip_by p s = s -> Py.rstrip_by p s = s -> Py.strip_by p s = s.
Proof. unfold Py.strip_by. by intros -> ->. Qed.

(** *** One field line *)

Ltac nonempty :=
  first [ discriminate
        | let H := fresh in intros H; cbv in H; discriminate H
        | apply sapp_ne_r; nonempty ].

Tactic Notation "rstrip_through" integer(n) :=
  do n (apply rstrip_by_app_to; [|nonempty]).

(** Stripping the commas of a field line takes its one comma. *)
Lemma rstrip_field_line (f v : string) :
  Py.rstrip_chars "," (field_line f v) = field_line_with "" f v.
Proof.
  unfold Py.rstrip_chars, field_line, field_line_with.
  rstrip_through 6. reflexivity.
Qed.

Lemma rstrip_space_field_line (ending f v : string) :
  ending = "" ∨ ending = "," ->
  Py.rstrip (field_line_with ending f v) = field_line_with ending f v.
Proof.
  unfold Py.rstrip, field_line_with. intros [-> | ->]; rstrip_through 6; reflexivity.
Qed.

Lemma strip_field_line (ending f v : string) :
  Py.strip f = f -> ending = "" ∨ ending = "," ->
  Py.strip (field_line_with ending f v) = trimmed_field_line ending f v.
Proof.
  intros [Hl Hr]%strip_by_fixed Hend. unfold Py.strip, Py.strip_by.
  assert (Hlstrip : Py.lstrip_by Py.isspace (field_line_with ending f v)
                    = trimmed_field_line ending f v).
  { unfold field_line_with, trimmed_field_line. destruct f as [|c f]; [reflexivity|].
    change (TAB ++ ?x) with (String (ascii_of_N 9) x).
    cbn [Py.lstrip_by]. change (Py.isspace (ascii_of_N 9)) with true. cbn iota.
    by apply lstrip_by_app_keep. }
  rewrite Hlstrip. unfold trimmed_field_line.
  destruct f as [|c f]; destruct Hend as [-> | ->].
  - rstrip_through 2. reflexivity.
  - rstrip_through 2. reflexivity.
  - rstrip_through 5. reflexivity.
  - rstrip_through 5. reflexivity.
Qed.

Lemma value_parsed (ending v : string) :
  Py.strip v = v -> Py.strip_chars "{}" v = v -> ending = "" ∨ ending = "," ->
  Py.strip (Py.strip_chars "{}" (Py.strip_chars "," (Py.strip (" {" ++ v ++ "}" ++ ending))))
  = v.
Proof.
  intros Hv [Hbl Hbr]%strip_by_fixed Hend.
  assert (H1 : Py.strip (" {" ++ v ++ "}" ++ ending) = "{" ++ v ++ "}" ++ ending).
  { unfold Py.strip, Py.strip_by.
    change (" {" ++ ?x) with (String " " ("{" ++ x)).
    cbn [Py.lstrip_by]. change (Py.isspace " ") with true. cbn iota.
    change (Py.lstrip_by Py.isspace ("{" ++ ?x)) with ("{" ++ x).
    destruct Hend as [-> | ->]; rstrip_through 2; reflexivity. }
  assert (H2 : Py.strip_chars "," ("{" ++ v ++ "}" ++ ending) = "{" ++ v ++ "}").
  { unfold Py.strip_chars, Py.strip_by.
    change (Py.lstrip_by _ ("{" ++ ?x)) with ("{" ++ x).
    destruct Hend as [-> | ->]; rstrip_through 2; reflexivity. }
  assert (H3 : Py.strip_chars "{}" ("{" ++ v ++ "}") = v).
  { unfold Py.strip_chars, Py.strip_by.
    change (Py.lstrip_by ?p ("{" ++ ?x)) with (Py.lstrip_by p x).
    rewrite lstrip_by_app, Hbl. destruct v as [|c v]; [reflexivity|].
    change (String c v ++ "}") with (String c v ++ String "}" "").
    by rewrite rstrip_by_drop. }
  by rewrite H1, H2, H3.
Qed.

Lemma field_line_assoc (f x : string) :
  f ++ TAB ++ TAB ++ " = {" ++ x = (f ++ TAB ++ TAB ++ " ") ++ String "=" (" {" ++ x).
Proof. by rewrite !sapp_assoc. Qed.

(** The trimmed field line is a field line to the parser, and gives back the
    name and the value. *)
Lemma parse_trimmed_field_line (ending f v : string) :
  field_ok f -> value_ok v -> ending = "" ∨ ending = "," ->
  parse_field (trimmed_field_line ending f v) = Ok (f, v)
  ∧ Py.startswith "@" (trimmed_field_line ending f v) = false
  ∧ Py.char_in "=" (trimmed_field_line ending f v) = true.
Proof.
  intros (Hstrip & Hlower & Heq & Hat & _) (Hv & Hbrace & _) Hend.
  pose proof (value_parsed ending v Hv Hbrace Hend) as Hvalue.
  unfold trimmed_field_line, parse_field. destruct f as [|c f].
  - change ("= {" ++ ?x) with (String "=" (" {" ++ x)).
    cbn [Py.split1]. change (Ascii.eqb "=" "=") with true. cbn iota.
    rewrite Hvalue. by repeat split.
  - rewrite field_line_assoc. split; [|split].
    + rewrite split1_app.
      * rewrite Hvalue. f_equal. f_equal. rewrite <- Hlower at 2. f_equal.
        apply strip_by_fixed in Hstrip as [Hl Hr].
        unfold Py.strip, Py.strip_by. rewrite lstrip_by_app_keep by done.
        by rewrite rstrip_by_app.
      * by rewrite char_in_app, Heq.
    + rewrite !sapp_cons. cbn [Py.startswith] in *. done.
    + by rewrite char_in_app, orb_true_r.
Qed.

Lemma parse_line_field (st : parser) (ending f v : string) :
  inside_entry st = true -> field_ok f -> value_ok v -> ending = "" ∨ ending = "," ->
  parse_line st (field_line_with ending f v) = with_field st f v.
Proof.
  intros Hin Hf Hv Hend.
  destruct (parse_trimmed_field_line ending f v Hf Hv Hend) as (Hparse & Hat & Heq).
  unfold parse_line, with_field. destruct Hf as (Hstrip & _).
  rewrite strip_field_line by done.
  by rewrite (char_in_truthy _ _ Heq), Hat, Hin, isin_char, Heq, Hparse.
Qed.

(** *** The header and the closing brace *)

Lemma strip_header (k entry_type : string) :
  Py.strip ("@" ++ entry_type ++ "{" ++ k ++ ",") = "@" ++ entry_type ++ "{" ++ k ++ ",".
Proof.
  unfold Py.strip, Py.strip_by.
  change (Py.lstrip_by _ ("@" ++ ?x)) with ("@" ++ x).
  rstrip_through 4. reflexivity.
Qed.

Lemma rstrip_space_header (k entry_type : string) :
  Py.rstrip ("@" ++ entry_type ++ "{" ++ k ++ ",") = "@" ++ entry_type ++ "{" ++ k ++ ",".
Proof. unfold Py.rstrip. rstrip_through 4. reflexivity. Qed.

Lemma parse_line_header (k entry_type : string) :
  key_ok k -> type_ok entry_type ->
  parse_line parser_init ("@" ++ entry_type ++ "{" ++ k ++ ",") = opened entry_type k.
Proof.
  intros (_ & Hstrip & Hcomma & _) (Hbrace & _).
  unfold parse_line. rewrite strip_header.
  change (Py.truthy ("@" ++ ?x)) with true.
  change (Py.startswith "@" ("@" ++ ?x)) with true. cbn [negb].
  unfold parse_header. change (Py.tail ("@" ++ ?x)) with x.
  change (entry_type ++ "{" ++ k ++ ",") with (entry_type ++ String "{" (k ++ String "," "")).
  rewrite split1_app by done. rewrite split_head_app by done. by rewrite Hstrip.
Qed.

Lemma parse_line_close (st : parser) :
  inside_entry st = true ->
  parse_line st "}"
  = {| parsed_entries := flush st; entry := ∅; key := None; entry_type := None;
       inside_entry := false |}.
Proof. intros Hin. unfold parse_line. cbn. by rewrite Hin. Qed.

(** *** The lines of a rendered entry *)

Lemma body_present (e : entry_dict) (field_order : list string) :
  flat_map (fun f => match e !! f with
                     | Some v => [field_line f v]
                     | None => []
                     end) field_order
  = map (fun fv => field_line fv.1 fv.2) (present e field_order).
Proof.
  unfold present. induction field_order as [|f l IH]; [done|]. simpl.
  rewrite IH. by destruct (e !! f).
Qed.

Lemma map_last_cons (g : string -> string) (x : string) (l : list string) :
  l <> [] -> map_last g (x :: l) = x :: map_last g l.
Proof. by destruct l. Qed.

Lemma map_last_renders (pairs : list (string * string)) :
  Forall2 renders
    (map_last (Py.rstrip_chars ",") (map (fun fv => field_line fv.1 fv.2) pairs)) pairs.
Proof.
  induction pairs as [|fv [|fv' l] IH]; [constructor|..].
  - constructor; [|constructor]. exists "". split; [by left|]. apply rstrip_field_line.
  - change (map_last ?g (map ?h (fv :: fv' :: l)))
      with (h fv :: map_last g (map h (fv' :: l))).
    constructor; [|exact IH]. exists ",". split; [by right|]. reflexivity.
Qed.

Lemma present_ok (e : entry_dict) (field_order : list string) :
  (forall f v, f ∈ field_order -> e !! f = Some v -> field_ok f ∧ value_ok v) ->
  Forall (fun fv => field_ok fv.1 ∧ value_ok fv.2) (present e field_order).
Proof.
  unfold present. induction field_order as [|f l IH]; intros Hok; [constructor|]. simpl.
  assert (Hrest : forall f' v, f' ∈ l -> e !! f' = Some v -> field_ok f' ∧ value_ok v).
  { intros f' v Hin. apply Hok. by right. }
  destruct (e !! f) as [v|] eqn:Hf; simpl; [|by apply IH].
  constructor; [|by apply IH]. apply Hok; [by left | done].
Qed.

(** The field lines, read one after the other inside an entry, set the
    fields they render and change nothing else. *)
Lemma parse_field_lines (lines : list string) (pairs : list (string * string)) :
  Forall2 renders lines pairs ->
  Forall (fun fv => field_ok fv.1 ∧ value_ok fv.2) pairs ->
  forall st, inside_entry st = true ->
    foldl parse_line st lines
    = {| parsed_entries := parsed_entries st; entry := insert_all (entry st) pairs;
         key := key st; entry_type := entry_type st; inside_entry := true |}.
Proof.
  induction 1 as [|line fv lines pairs (ending & Hend & ->) _ IH]; intros Hok st Hin.
  - simpl. rewrite <- Hin. by destruct st.
  - inversion Hok as [|?? [Hf Hv] Hrest]; subst. simpl.
    rewrite parse_line_field by done. by rewrite IH.
Qed.

Lemma insert_all_lookup (e : entry_dict) (field_order : list string) :
  forall (m : entry_dict) (x : string),
    insert_all m (present e field_order) !! x
    = if decide (x ∈ field_order)
      then match e !! x with
           | Some v => Some v
           | None => m !! x
           end
      else m !! x.
Proof.
  unfold insert_all, present.
  induction field_order as [|f l IH]; intros m x; [done|]. simpl.
  destruct (e !! f) as [v|] eqn:Hf; simpl; rewrite IH.
  - destruct (decide (x = f)) as [->|Hne].
    + rewrite Hf, lookup_insert_eq.
      rewrite (decide_True (P := f ∈ f :: l)) by by left. by destruct (decide (f ∈ l)).
    + rewrite lookup_insert_ne by done.
      destruct (decide (x ∈ l)) as [Hin|Hout].
      * by rewrite (decide_True (P := x ∈ f :: l)) by by right.
      * rewrite (decide_False (P := x ∈ f :: l)); [done|].
        by intros [?|?]%elem_of_cons.
  - destruct (decide (x = f)) as [->|Hne].
    + rewrite Hf. rewrite (decide_True (P := f ∈ f :: l)) by by left.
      by destruct (decide (f ∈ l)).
    + destruct (decide (x ∈ l)) as [Hin|Hout].
      * by rewrite (decide_True (P := x ∈ f :: l)) by by right.
      * rewrite (decide_False (P := x ∈ f :: l)); [done|].
        by intros [?|?]%elem_of_cons.
Qed.

(** Setting, from nothing, the fields of the field order that the entry has
    gives the entry restricted to the field order. *)
Lemma insert_all_restrict (e : entry_dict) (field_order : list string) :
  insert_all ∅ (present e field_order) = restrict e field_order.
Proof.
  apply map_eq. intros x. rewrite insert_all_lookup, lookup_empty. unfold restrict.
  apply option_eq. intros v. rewrite map_lookup_filter_Some. simpl.
  destruct (decide (x ∈ field_order)); destruct (e !! x); naive_solver.
Qed.

Lemma one_line_app (a b : string) : one_line a -> one_line b -> one_line (a ++ b).
Proof.
  unfold one_line. rewrite !char_in_app. intros [-> ->] [-> ->]. done.
Qed.

Lemma one_line_header (k entry_type : string) :
  key_ok k -> type_ok entry_type -> one_line ("@" ++ entry_type ++ "{" ++ k ++ ",").
Proof.
  intros (_ & _ & _ & Hk) (_ & Het).
  repeat (apply one_line_app; [done|]). done.
Qed.

Lemma one_line_renders (line : string) (fv : string * string) :
  renders line fv -> field_ok fv.1 -> value_ok fv.2 -> one_line line.
Proof.
  intros (ending & Hend & ->) (_ & _ & _ & _ & Hf) (_ & _ & Hv).
  unfold field_line_with.
  repeat (apply one_line_app; [done|]). by destruct Hend as [-> | ->].
Qed.

Lemma rendered_lines (lines : list string) (pairs : list (string * string)) :
  Forall2 renders lines pairs ->
  Forall (fun fv => field_ok fv.1 ∧ value_ok fv.2) pairs ->
  Forall one_line lines ∧ map Py.rstrip lines = lines.
Proof.
  induction 1 as [|line fv lines pairs Hr _ IH]; intros Hok; [done|].
  inversion Hok as [|?? [Hf Hv] Hrest]; subst.
  destruct (IH Hrest) as [Hone Hstrip]. split.
  - constructor; [by eapply one_line_renders | done].
  - simpl. rewrite Hstrip. destruct Hr as (ending & Hend & ->).
    by rewrite rstrip_space_field_line.
Qed.

Lemma flush_opened (k entry_type : string) (m : entry_dict) :
  k <> "" -> m <> ∅ ->
  flush {| parsed_entries := []; entry := m; key := Some k;
           entry_type := Some entry_type; inside_entry := true |}
  = [(k, <["entry_type" := entry_type]> m)].
Proof.
  intros Hk Hm. unfold flush. simpl. rewrite decide_False by done. by destruct k.
Qed.

(** C1, amended: the text rendered for a key, an entry, an entry type and a
    field order parses back to exactly one pair, the key with the entry
    restricted to the field order and its [entry_type] set from the header,
    when the key is not empty, has no comma, no surrounding whitespace and no
    line break; the entry type has no opening brace and no line break; at
    least one field of the field order is in the entry; and each such field
    has a name that is trimmed, in lower case, without equals sign, line
    break or leading at sign, and a value that is trimmed and on one line,
    with no brace at either end. *)
Theorem serialize_parse_round_trip (k : string) (e : entry_dict) (etype : string)
    (field_order : list string) :
  key_ok k ->
  type_ok etype ->
  (forall f v, f ∈ field_order -> e !! f = Some v -> field_ok f ∧ value_ok v) ->
  (exists f, f ∈ field_order ∧ is_Some (e !! f)) ->
  parse (serialize k e etype field_order)
  = [(k, <["entry_type" := etype]> (restrict e field_order))].
Proof.
  intros Hk Ht Hfields (f0 & Hf0 & v0 & Hv0).
  pose proof (present_ok e field_order Hfields) as Hok.
  pose proof (map_last_renders (present e field_order)) as Hrender.
  destruct (rendered_lines _ _ Hrender Hok) as [Hone Hrstrip].
  assert (Hentry : restrict e field_order <> ∅).
  { intros Hempty. assert (restrict e field_order !! f0 = Some v0) as Hl.
    { unfold restrict. by apply map_lookup_filter_Some. }
    by rewrite Hempty, lookup_empty in Hl. }
  assert (Hbody : present e field_order <> []).
  { intros Hnil. apply Hentry. by rewrite <- insert_all_restrict, Hnil. }
  unfold parse, serialize, bibtex_lines.
  rewrite body_present, map_last_cons by by destruct (present e field_order).
  set (header := "@" ++ etype ++ "{" ++ k ++ ",") in *.
  set (body := map_last _ _) in *.
  rewrite (file_lines_join (header :: body) "}"); [| | done].
  2:{ constructor; [by apply one_line_header|].
      apply Forall_app. split; [done|]. by repeat constructor. }
  rewrite map_app. cbn [map]. rewrite Hrstrip.
  unfold header at 1. rewrite rstrip_space_header. fold header.
  change (Py.rstrip "}") with "}".
  unfold parse_lines. rewrite foldl_app. cbn [foldl]. unfold header.
  rewrite parse_line_header by done.
  rewrite (parse_field_lines _ _ Hrender Hok) by done.
  rewrite parse_line_close by done. unfold flush at 1. cbn [entry parsed_entries].
  rewrite decide_True by done. cbn [opened entry parsed_entries key entry_type].
  rewrite insert_all_restrict. apply flush_opened; [by destruct Hk | done].
Qed.

Lemma serialize_parse_round_trip_witness :
  parse (serialize "knuth84" sample_entry "book" ["year"; "title"; "publisher"])
  = [("knuth84",
      <["entry_type" := "book"]> (restrict sample_entry ["year"; "title"; "publisher"]))].
Proof.
  apply (serialize_parse_round_trip "knuth84" sample_entry "book"
           ["year"; "title"; "publisher"]).
  - repeat split; done.
  - repeat split; done.
  - intros f v Hin Hv.
    apply elem_of_cons in Hin as [->|Hin];
      [vm_compute in Hv; injection Hv as <-; repeat split; reflexivity|].
    apply elem_of_cons in Hin as [->|Hin];
      [vm_compute in Hv; injection Hv as <-; repeat split; reflexivity|].
    apply elem_of_cons in Hin as [->|Hin]; [vm_compute in Hv; discriminate Hv|].
    by apply elem_of_nil in Hin.
  - exists "year". split; [by left|]. eexists. reflexivity.
Defined.

(** C1 as stated fails for a value in braces, which comes back without
    them, and for an entry none of whose fields is in the field order, which
    does not come back at all. *)
Lemma serialize_parse_round_trip_counterexample :
  parse (serialize "k" braced_entry "article" ["title"])
  = [("k", {[ "title" := "X"; "entry_type" := "article" ]})]
  ∧ restrict braced_entry ["title"] !! "title" = Some "{X}"
  ∧ parse (serialize "k" braced_entry "article" ["year"]) = [].
Proof. repeat split; by vm_compute. Qed.

(** *** The parser's variables *)

Lemma parse_line_key_with_type (st : parser) (raw : string) :
  key_with_type st -> key_with_type (parse_line st raw).
Proof.
  intros Hst. unfold parse_line.
  destruct (negb _); [done|]. destruct (Py.startswith "@" _).
  { destruct (parse_header _) as [[et k]|]; unfold key_with_type; simpl; eauto. }
  destruct (_ && Py.isin _ _).
  { by destruct (parse_field _) as [[f v]|]. }
  destruct (_ && Py.startswith _ _); [|done].
  unfold key_with_type. simpl. by intros [? ?].
Qed.

(** Whatever the lines, a key is held only together with an entry type: the
    last case of [flush] does not arise. *)
Lemma key_has_type (lines : list string) :
  key_with_type (foldl parse_line parser_init lines).
Proof.
  assert (Hgen : forall st, key_with_type st -> key_with_type (foldl parse_line st lines)).
  { induction lines as [|l lines IH]; intros st Hst; [done|]. simpl.
    by apply IH, parse_line_key_with_type. }
  apply Hgen. unfold key_with_type. simpl. by intros [? ?].
Qed.

(** * Further properties *)

(** ** Trimming and lower case *)

Lemma lstrip_by_idem (p : ascii -> bool) (s : string) :
  Py.lstrip_by p (Py.lstrip_by p s) = Py.lstrip_by p s.
Proof.
  induction s as [|c s IH]; [done|]. simpl.
  destruct (p c) eqn:Hc; [done|]. simpl. by rewrite Hc.
Qed.

Lemma rstrip_by_idem (p : ascii -> bool) (s : string) :
  Py.rstrip_by p (Py.rstrip_by p s) = Py.rstrip_by p s.
Proof.
  induction s as [|c s IH]; [done|]. simpl.
  destruct (Py.rstrip_by p s) as [|d r] eqn:Hr.
  - destruct (p c) eqn:Hc; [done|]. simpl. by rewrite Hc.
  - change (Py.rstrip_by p (String c (String d r)))
      with (match Py.rstrip_by p (String d r) with
            | "" => if p c then "" else String c ""
            | r' => String c r'
            end).
    by rewrite IH.
Qed.

Lemma lstrip_rstrip_fixed (p : ascii -> bool) (s : string) :
  Py.lstrip_by p s = s -> Py.lstrip_by p (Py.rstrip_by p s) = Py.rstrip_by p s.
Proof.
  destruct s as [|c s]; [done|]. intros Hc%lstrip_by_fixed_head.
  rewrite rstrip_by_cons_keep by done. simpl. by rewrite Hc.
Qed.

(** Trimming twice is trimming once. *)
Lemma strip_by_idem (p : ascii -> bool) (s : string) :
  Py.strip_by p (Py.strip_by p s) = Py.strip_by p s.
Proof.
  unfold Py.strip_by.
  rewrite (lstrip_rstrip_fixed p (Py.lstrip_by p s)) by apply lstrip_by_idem.
  apply rstrip_by_idem.
Qed.

Lemma strip_idem (s : string) : Py.strip (Py.strip s) = Py.strip s.
Proof. apply strip_by_idem. Qed.

Lemma lower_char_idem (c : ascii) : Py.lower_char (Py.lower_char c) = Py.lower_char c.
Proof. destruct c as [[] [] [] [] [] [] [] []]; reflexivity. Qed.

Lemma isspace_lower_char (c : ascii) : Py.isspace (Py.lower_char c) = Py.isspace c.
Proof. destruct c as [[] [] [] [] [] [] [] []]; reflexivity. Qed.

Lemma lower_idem (s : string) : Py.lower (Py.lower s) = Py.lower s.
Proof. induction s as [|c s IH]; [done|]. simpl. by rewrite lower_char_idem, IH. Qed.

Lemma lower_lstrip (s : string) :
  Py.lower (Py.lstrip_by Py.isspace s) = Py.lstrip_by Py.isspace (Py.lower s).
Proof.
  induction s as [|c s IH]; [done|]. cbn [Py.lower Py.lstrip_by].
  rewrite isspace_lower_char. by destruct (Py.isspace c).
Qed.

Lemma lower_rstrip (s : string) :
  Py.lower (Py.rstrip_by Py.isspace s) = Py.rstrip_by Py.isspace (Py.lower s).
Proof.
  induction s as [|c s IH]; [done|]. cbn [Py.lower Py.rstrip_by].
  rewrite <- IH, isspace_lower_char.
  destruct (Py.rstrip_by Py.isspace s); [|done]. by destruct (Py.isspace c).
Qed.

(** Lower case and trimming commute. *)
Lemma lower_strip (s : string) : Py.lower (Py.strip s) = Py.strip (Py.lower s).
Proof. unfold Py.strip, Py.strip_by. by rewrite lower_rstrip, lower_lstrip. Qed.

Lemma char_in_lstrip_by (p : ascii -> bool) (c : ascii) (s : string) :
  Py.char_in c s = false -> Py.char_in c (Py.lstrip_by p s) = false.
Proof.
  intros H. destruct (lstrip_by_suffix p s) as [pre Hpre].
  rewrite Hpre, char_in_app in H. by apply orb_false_iff in H as [_ H].
Qed.

Lemma char_in_strip (c : ascii) (s : string) :
  Py.char_in c s = false -> Py.char_in c (Py.strip s) = false.
Proof. intros H. by apply char_in_rstrip_by, char_in_lstrip_by. Qed.

Lemma char_in_split_head (c : ascii) (s : string) :
  Py.char_in c (Py.split_head (String c "") s) = false.
Proof.
  induction s as [|a s IH]; [done|]. cbn [Py.split_head Py.startswith].
  destruct (Ascii.eqb c a) eqn:Hca; [done|]. cbn [andb Py.char_in]. by rewrite Hca, IH.
Qed.

(** ** The parser: what it gives back *)

Lemma parse_header_ok (line et k : string) :
  parse_header line = Ok (et, k) ->
  Py.char_in "{" et = false ∧ Py.strip k = k ∧ Py.char_in "," k = false.
Proof.
  unfold parse_header. destruct (Py.split1 "{" (Py.tail line)) as [[l r]|] eqn:Hs; [|done].
  intros [= <- <-]. apply split1_Some in Hs as [_ Hl].
  split; [done|]. split; [apply strip_idem|]. apply char_in_strip, char_in_split_head.
Qed.

Lemma parse_field_ok (line f v : string) :
  parse_field line = Ok (f, v) -> Py.lower f = f ∧ Py.strip f = f ∧ Py.strip v = v.
Proof.
  unfold parse_field. destruct (Py.split1 "=" line) as [[l r]|]; [|done].
  intros [= <- <-]. split; [apply lower_idem|]. split; [|apply strip_idem].
  by rewrite <- lower_strip, strip_idem.
Qed.

Lemma flush_inv (st : parser) : parser_inv st -> Forall emitted_ok (flush st).
Proof.
  intros (Hdone & Hkey & Htype & Hentry & _). unfold flush.
  destruct (decide (entry st = ∅)); [done|].
  destruct (key st) as [[|c k]|] eqn:Hk; [done| |done].
  destruct (entry_type st) as [et|] eqn:Het; [|done].
  apply Forall_app. split; [done|]. constructor; [|constructor].
  destruct (Hkey _ eq_refl) as [Hstrip Hcomma].
  unfold emitted_ok. simpl. split; [done|]. split; [done|]. split; [done|]. split.
  - exists et. split; [by rewrite lookup_insert_eq | by apply Htype].
  - intros f v Hl. destruct (decide (f = "entry_type")) as [->|Hf].
    + by repeat split.
    + rewrite lookup_insert_ne in Hl by done.
      destruct (Hentry _ _ Hl) as (? & ? & ?). by repeat split.
Qed.

Lemma parse_line_inv (st : parser) (raw : string) :
  parser_inv st -> parser_inv (parse_line st raw).
Proof.
  intros Hinv. pose proof (flush_inv st Hinv) as Hflush.
  destruct Hinv as (Hdone & Hkey & Htype & Hentry & Hkt & Hidle).
  unfold parse_line. destruct (negb _); [done|].
  destruct (Py.startswith "@" _).
  { destruct (parse_header _) as [[et k]|] eqn:Hh.
    - apply parse_header_ok in Hh as (Het & Hk & Hc).
      unfold parser_inv. simpl.
      split_and!; try done; try (by intros ? [= <-]); eauto.
    - unfold parser_inv. simpl.
      split_and!; try done; try (by intros ? [= <-]); eauto. }
  destruct (inside_entry st) eqn:Hin; cbn [andb].
  - destruct (Py.isin "=" _).
    { destruct (parse_field _) as [[f v]|] eqn:Hf.
      - apply parse_field_ok in Hf. unfold parser_inv. simpl. split_and!; try done.
        intros f' v' Hl. destruct (decide (f' = f)) as [->|Hne].
        + rewrite lookup_insert_eq in Hl. by injection Hl as <-.
        + rewrite lookup_insert_ne in Hl by done. by apply Hentry.
      - unfold parser_inv. by rewrite Hin. }
    destruct (Py.startswith "}" _).
    + unfold parser_inv. simpl. split_and!; try done; try (by intros [? ?]).
    + unfold parser_inv. by rewrite Hin.
  - unfold parser_inv. by rewrite Hin.
Qed.

Lemma parser_init_inv : parser_inv parser_init.
Proof.
  unfold parser_inv. simpl. split_and!; try done; try (by intros [? ?]).
Qed.

Lemma foldl_parse_line_inv (lines : list string) :
  forall st, parser_inv st -> parser_inv (foldl parse_line st lines).
Proof.
  induction lines as [|l lines IH]; intros st Hst; [done|]. simpl.
  by apply IH, parse_line_inv.
Qed.

Lemma parse_lines_emitted (lines : list string) : Forall emitted_ok (parse_lines lines).
Proof. apply flush_inv, foldl_parse_line_inv, parser_init_inv. Qed.

(** X1: every pair the parser gives back has a key that is not empty, is
    trimmed and has no comma, and an [entry_type] field whose text has no
    opening brace. *)
Theorem parse_keys_and_types (text : string) :
  Forall (fun kv : string * entry_dict =>
            kv.1 <> "" ∧ Py.strip kv.1 = kv.1 ∧ Py.char_in "," kv.1 = false
            ∧ exists et, kv.2 !! "entry_type" = Some et ∧ Py.char_in "{" et = false)
    (parse text).
Proof.
  unfold parse. eapply Forall_impl; [apply parse_lines_emitted|].
  intros [k e] (? & ? & ? & ? & _). done.
Qed.

(** X2: in every entry the parser gives back the field names are in lower
    case and trimmed, and the values, that of [entry_type] apart, are
    trimmed. *)
Theorem parse_fields_normal (text : string) :
  Forall (fun kv : string * entry_dict =>
            forall f v, kv.2 !! f = Some v ->
              Py.lower f = f ∧ Py.strip f = f ∧ (f <> "entry_type" -> Py.strip v = v))
    (parse text).
Proof.
  unfold parse. eapply Forall_impl; [apply parse_lines_emitted|].
  intros [k e] (_ & _ & _ & _ & Hf). exact Hf.
Qed.

Lemma parse_line_blank (st : parser) (raw : string) :
  blank_line raw -> parse_line st raw = st.
Proof. unfold blank_line, parse_line. by intros ->. Qed.

(** X3: a line that is blank once trimmed changes nothing, wherever it
    stands, inside an entry or outside. *)
Theorem parse_blank_line_ignored (before after : list string) (raw : string) :
  blank_line raw ->
  parse_lines (before ++ raw :: after) = parse_lines (before ++ after).
Proof.
  intros Hblank. unfold parse_lines. rewrite !foldl_app. cbn [foldl].
  by rewrite parse_line_blank.
Qed.

Lemma parse_blank_line_ignored_witness :
  parse_lines (["@book{k,"; "title = {T}"] ++ "  	 " :: ["year = {1984}"; "}"])
  = parse_lines (["@book{k,"; "title = {T}"] ++ ["year = {1984}"; "}"]).
Proof.
  apply (parse_blank_line_ignored ["@book{k,"; "title = {T}"] ["year = {1984}"; "}"]).
  reflexivity.
Defined.

(** X4: lines none of which begins, once trimmed, with an at sign give no
    entry: field lines and braces outside an entry are passed over. *)
Theorem parse_without_header (lines : list string) :
  Forall (fun raw => header_line raw = false) lines -> parse_lines lines = [].
Proof.
  intros Hlines. unfold parse_lines.
  assert (Hgen : forall st, inside_entry st = false -> foldl parse_line st lines = st).
  { induction Hlines as [|raw lines Hraw _ IH]; intros st Hst; [done|]. simpl.
    assert (parse_line st raw = st) as ->; [|by apply IH].
    unfold parse_line, header_line in *. rewrite Hraw, Hst. simpl.
    by destruct (negb _). }
  by rewrite Hgen.
Qed.

Lemma parse_without_header_witness :
  parse_lines ["title = {Foo},"; "}"; "author = {Bar}"] = [].
Proof.
  apply (parse_without_header ["title = {Foo},"; "}"; "author = {Bar}"]).
  repeat constructor.
Defined.

(** Entries parsed earlier do not bear on the lines that follow. *)
Lemma flush_after_entries (done : list (string * entry_dict)) (st : parser) :
  flush (after_entries done st) = (done ++ flush st)%list.
Proof.
  unfold flush, after_entries. simpl. destruct (decide (entry st = ∅)); [done|].
  destruct (key st) as [[|c k]|]; try done.
  destruct (entry_type st); [|done]. by rewrite app_assoc.
Qed.

Lemma parse_line_after_entries done (st : parser) (raw : string) :
  parse_line (after_entries done st) raw = after_entries done (parse_line st raw).
Proof.
  unfold parse_line. rewrite flush_after_entries.
  destruct (negb _); [done|]. destruct (Py.startswith "@" _).
  { by destruct (parse_header _) as [[et k]|]. }
  change (inside_entry (after_entries done st)) with (inside_entry st).
  destruct (inside_entry st && Py.isin "=" _).
  { by destruct (parse_field _) as [[f v]|]. }
  by destruct (inside_entry st && Py.startswith "}" _).
Qed.

Lemma foldl_parse_line_after_entries done (lines : list string) :
  forall st, foldl parse_line (after_entries done st) lines
             = after_entries done (foldl parse_line st lines).
Proof.
  induction lines as [|l lines IH]; intros st; [done|]. simpl.
  by rewrite parse_line_after_entries, IH.
Qed.

Lemma startswith_brace_not_at (s : string) :
  Py.startswith "}" s = true -> Py.startswith "@" s = false ∧ Py.truthy s = true.
Proof.
  destruct s as [|c s]; [done|]. cbn [Py.startswith].
  rewrite !andb_true_r. intros <-%Ascii.eqb_eq. done.
Qed.

(** After a closing line the parser holds nothing but the entries done. *)
Lemma parse_line_closing (st : parser) (c : string) :
  parser_inv st -> closing_line c = true ->
  exists done, parse_line st c = after_entries done parser_init ∧ flush st = done.
Proof.
  intros (_ & _ & _ & _ & _ & Hidle) [Hbrace Heq%negb_true_iff]%andb_true_iff.
  destruct (startswith_brace_not_at _ Hbrace) as [Hat Htruthy].
  unfold parse_line. rewrite Htruthy, Hat, Heq, Hbrace, andb_false_r, andb_true_r.
  cbn [negb]. destruct (inside_entry st) eqn:Hin.
  - exists (flush st). split; [|done]. unfold after_entries. simpl. by rewrite app_nil_r.
  - destruct (Hidle eq_refl) as (He & Hk & Ht). exists (parsed_entries st). split.
    + unfold after_entries. simpl. rewrite app_nil_r.
      destruct st; simpl in *. by subst.
    + unfold flush. rewrite He. by rewrite decide_True.
Qed.

(** X5: a closing line ends what came before it: the entries of the lines up
    to it and the entries of the lines after it are parsed independently
    and in that order. *)
Theorem parse_after_closing_line (before after : list string) (c : string) :
  closing_line c = true ->
  parse_lines (before ++ c :: after)
  = (parse_lines (before ++ [c]) ++ parse_lines after)%list.
Proof.
  intros Hc. unfold parse_lines. rewrite !foldl_app. cbn [foldl].
  destruct (parse_line_closing (foldl parse_line parser_init before) c) as (done & -> & _).
  { apply foldl_parse_line_inv, parser_init_inv. }
  { done. }
  rewrite foldl_parse_line_after_entries, !flush_after_entries.
  change (flush parser_init) with (@nil (string * entry_dict)).
  by rewrite app_nil_r.
Qed.

Lemma parse_after_closing_line_witness :
  parse_lines (["@book{k1,"; "title = {T}"] ++ "}" :: ["@article{k2,"; "year = {1984}"])
  = (parse_lines (["@book{k1,"; "title = {T}"] ++ ["}"])
     ++ parse_lines ["@article{k2,"; "year = {1984}"])%list.
Proof.
  apply (parse_after_closing_line ["@book{k1,"; "title = {T}"]
           ["@article{k2,"; "year = {1984}"] "}").
  reflexivity.
Defined.


(** ** Rendering and parsing together *)

(** The text of an entry read back: the entry restricted to the field
    order, with the type of the header. *)
Lemma parse_serialize_restricted (k : string) (e : entry_dict) (etype : string)
    (field_order : list string) :
  key_ok k ->
  type_ok etype ->
  (forall f v, f ∈ field_order -> e !! f = Some v -> field_ok f ∧ value_ok v) ->
  (exists f, f ∈ field_order ∧ is_Some (e !! f)) ->
  parse (serialize k e etype field_order)
  = [(k, <["entry_type" := etype]> (restrict e field_order))].
Proof.
  intros Hk Ht Hfields (f0 & Hf0 & v0 & Hv0).
  pose proof (present_ok e field_order Hfields) as Hok.
  pose proof (map_last_renders (present e field_order)) as Hrender.
  destruct (rendered_lines _ _ Hrender Hok) as [Hone Hrstrip].
  assert (Hentry : restrict e field_order <> ∅).
  { intros Hempty. assert (restrict e field_order !! f0 = Some v0) as Hl.
    { unfold restrict. by apply map_lookup_filter_Some. }
    by rewrite Hempty, lookup_empty in Hl. }
  assert (Hbody : present e field_order <> []).
  { intros Hnil. apply Hentry. by rewrite <- insert_all_restrict, Hnil. }
  unfold parse, serialize, bibtex_lines.
  rewrite body_present, map_last_cons by by destruct (present e field_order).
  set (header := "@" ++ etype ++ "{" ++ k ++ ",") in *.
  set (body := map_last _ _) in *.
  rewrite (file_lines_join (header :: body) "}"); [| | done].
  2:{ constructor; [by apply one_line_header|].
      apply Forall_app. split; [done|]. by repeat constructor. }
  rewrite map_app. cbn [map]. rewrite Hrstrip.
  unfold header at 1. rewrite rstrip_space_header. fold header.
  change (Py.rstrip "}") with "}".
  unfold parse_lines. rewrite foldl_app. cbn [foldl]. unfold header.
  rewrite parse_line_header by done.
  rewrite (parse_field_lines _ _ Hrender Hok) by done.
  rewrite parse_line_close by done. unfold flush at 1. cbn [entry parsed_entries].
  rewrite decide_True by done. cbn [opened entry parsed_entries key entry_type].
  rewrite insert_all_restrict. apply flush_opened; [by destruct Hk | done].
Qed.

(** X6: an entry rendered with its own type and read back is the entry
    itself, when all its fields other than [entry_type] are in the field
    order (at least one is), and the key, the type, the names and the values
    are such as the header and the field lines give back. *)
Theorem export_import_same_entry (k : string) (e : entry_dict) (etype : string)
    (field_order : list string) :
  key_ok k ->
  e !! "entry_type" = Some etype ->
  type_ok etype ->
  (forall f, is_Some (e !! f) -> f ∈ field_order ∨ f = "entry_type") ->
  (forall f v, f ∈ field_order -> e !! f = Some v -> field_ok f ∧ value_ok v) ->
  (exists f, f ∈ field_order ∧ is_Some (e !! f)) ->
  parse (bibtex_entry k e field_order) = [(k, e)].
Proof.
  intros Hk He Ht Hall Hfields Hsome. unfold bibtex_entry. rewrite He. simpl.
  rewrite parse_serialize_restricted by done. do 2 f_equal.
  apply map_eq. intros x. destruct (decide (x = "entry_type")) as [->|Hx].
  - by rewrite lookup_insert_eq.
  - rewrite lookup_insert_ne by done. unfold restrict.
    apply option_eq. intros v. rewrite map_lookup_filter_Some. simpl.
    split; [tauto|]. intros Hv. split; [done|].
    destruct (Hall x) as [?|?]; [eauto|done..].
Qed.

Lemma export_import_same_entry_witness :
  parse (bibtex_entry "knuth84"
           {[ "title" := "The TeXbook"; "year" := "1984"; "entry_type" := "book" ]}
           ["year"; "title"; "publisher"])
  = [("knuth84", {[ "title" := "The TeXbook"; "year" := "1984"; "entry_type" := "book" ]})].
Proof.
  apply (export_import_same_entry "knuth84"
           {[ "title" := "The TeXbook"; "year" := "1984"; "entry_type" := "book" ]}
           "book" ["year"; "title"; "publisher"]).
  - repeat split; done.
  - reflexivity.
  - repeat split; done.
  - intros f [v Hv].
    destruct (decide (f = "title")) as [->|H1]; [left; set_solver|].
    destruct (decide (f = "year")) as [->|H2]; [left; set_solver|].
    destruct (decide (f = "entry_type")) as [->|H3]; [by right|].
    rewrite lookup_insert_ne in Hv by done. rewrite lookup_insert_ne in Hv by done.
    by rewrite lookup_singleton_ne in Hv by done.
  - intros f v Hin Hv.
    apply elem_of_cons in Hin as [->|Hin];
      [vm_compute in Hv; injection Hv as <-; repeat split; reflexivity|].
    apply elem_of_cons in Hin as [->|Hin];
      [vm_compute in Hv; injection Hv as <-; repeat split; reflexivity|].
    apply elem_of_cons in Hin as [->|Hin]; [vm_compute in Hv; discriminate Hv|].
    by apply elem_of_nil in Hin.
  - exists "year". split; [set_solver|]. eexists. reflexivity.
Defined.

(** The field lines depend on the entry only through the fields of the
    field order: an entry restricted to a list that holds the field order
    renders, for a given type, as the entry does. *)
Lemma serialize_restrict_to (k : string) (e : entry_dict) (etype : string)
    (kept field_order : list string) :
  (forall f, f ∈ field_order -> f ∈ kept) ->
  serialize k (restrict e kept) etype field_order = serialize k e etype field_order.
Proof.
  intros Hkept. unfold serialize, bibtex_lines. do 4 f_equal.
  induction field_order as [|f l IH]; [done|]. simpl.
  rewrite IH by (intros g Hg; apply Hkept; by right). f_equal.
  assert (restrict e kept !! f = e !! f) as ->; [|done].
  unfold restrict. apply option_eq. intros v. rewrite map_lookup_filter_Some. simpl.
  split; [tauto|]. intros Hv. split; [done|]. apply Hkept. by left.
Qed.

(** X7: the text of a result depends on the entry only through its
    [entry_type] and the fields of the field order: the entry and its
    restriction to these render alike. *)
Theorem bibtex_entry_restrict (k : string) (e : entry_dict) (field_order : list string) :
  bibtex_entry k (restrict e ("entry_type" :: field_order)) field_order
  = bibtex_entry k e field_order.
Proof.
  unfold bibtex_entry.
  assert (restrict e ("entry_type" :: field_order) !! "entry_type" = e !! "entry_type")
    as ->.
  { unfold restrict. apply option_eq. intros v. rewrite map_lookup_filter_Some. simpl.
    split; [tauto|]. intros Hv. split; [done | by left]. }
  apply serialize_restrict_to. intros f Hf. by right.
Qed.

(** ** Matching: how the modes combine *)

Lemma startswith_lower (q v : string) :
  Py.startswith q v = true -> Py.startswith (Py.lower q) (Py.lower v) = true.
Proof.
  revert v. induction q as [|a q IH]; intros [|b v]; simpl; try done.
  intros [Hab Hq]%andb_true_iff. apply Ascii.eqb_eq in Hab as ->.
  by rewrite Ascii.eqb_refl, IH.
Qed.

Lemma isin_lower (q v : string) :
  Py.isin q v = true -> Py.isin (Py.lower q) (Py.lower v) = true.
Proof.
  induction v as [|b v IH]; cbn [Py.isin Py.lower].
  - rewrite !orb_false_r. apply (startswith_lower q "").
  - intros [H|H]%orb_true_iff.
    + apply (startswith_lower q (String b v)) in H. cbn [Py.lower] in H.
      by rewrite H.
    + by rewrite IH, orb_true_r.
Qed.

Lemma isin_refl (s : string) : Py.isin s s = true.
Proof.
  assert (Hs : Py.startswith s s = true).
  { induction s as [|c s IH]; [done|]. simpl. by rewrite Ascii.eqb_refl. }
  destruct s; simpl in *; by rewrite ?Hs.
Qed.

Lemma mem_cons (x m : string) (modes : list string) :
  Py.mem x (m :: modes) = String.eqb x m || Py.mem x modes.
Proof. reflexivity. Qed.

Lemma mem_without_mode (x m : string) (modes : list string) :
  x <> m -> Py.mem x (without_mode m modes) = Py.mem x modes.
Proof.
  intros Hx. apply Bool.eq_true_iff_eq. rewrite !mem_In. unfold without_mode.
  rewrite filter_In. split; [tauto|]. intros Hin. split; [done|].
  apply negb_true_iff. by apply String.eqb_neq.
Qed.

Lemma mem_without_mode_same (m : string) (modes : list string) :
  Py.mem m (without_mode m modes) = false.
Proof.
  apply mem_false_iff. rewrite list_elem_of_In. unfold without_mode.
  rewrite filter_In. intros [_ H]. by rewrite String.eqb_refl in H.
Qed.

Section MoreMatching.

Variable re_search : string -> string -> result bool.
Variable ratio : string -> string -> float.

(** [matches] as the disjunction it computes. *)
Lemma matches_disjunction (v q : string) (modes : list string) (t : float) :
  matches re_search ratio v q modes t
  = (found ← regex_part re_search v q modes;
     Ok (if Py.mem "fuzzy" modes && fuzzy_holds ratio v q t
         then (true, v) else (literal_match v q modes || found, ""))).
Proof.
  rewrite matches_unfold. unfold regex_part, try_regex.
  destruct (Py.mem "regex" modes); simpl; [|by rewrite orb_false_r].
  destruct (re_search q v) as [[]|[]]; simpl;
    rewrite ?orb_true_r, ?orb_false_r; done.
Qed.

Lemma literal_match_insensitive (v q : string) (modes : list string) :
  Py.mem "case-sensitive" modes = true ->
  literal_match v q modes = true ->
  literal_match v q (without_mode "case-sensitive" modes) = true.
Proof.
  intros Hcs. unfold literal_match.
  rewrite mem_without_mode_same, !mem_without_mode by done. rewrite Hcs.
  intros [[-> Heq]%andb_true_iff|[-> Hin]%andb_true_iff]%orb_true_iff.
  - apply String.eqb_eq in Heq as ->. by rewrite String.eqb_refl.
  - rewrite (isin_lower _ _ Hin). by rewrite orb_true_r.
Qed.

(** X8: for values and queries whose characters are code points below 256,
    where [str.lower] works character by character (beyond them it does
    not: a capital sigma lowers differently at the end of a word), a value
    that matches with the case-sensitive modifier selected matches without
    it, with the same preview. *)
Theorem match_without_case_sensitive (v q : string) (modes : list string) (t : float)
    (p : string) :
  Py.mem "case-sensitive" modes = true ->
  matches re_search ratio v q modes t = Ok (true, p) ->
  matches re_search ratio v q (without_mode "case-sensitive" modes) t = Ok (true, p).
Proof.
  intros Hcs. rewrite !matches_disjunction. unfold regex_part.
  rewrite !mem_without_mode by done.
  destruct (if Py.mem "regex" modes then _ else _) as [found|e]; [|done]. simpl.
  destruct (Py.mem "fuzzy" modes && fuzzy_holds ratio v q t); [done|].
  intros [= Hm <-]. f_equal. f_equal.
  apply orb_true_iff in Hm as [Hm| ->]; [|by rewrite orb_true_r].
  by rewrite literal_match_insensitive.
Qed.

Lemma literal_match_more (v q m : string) (modes : list string) :
  m <> "case-sensitive" ->
  literal_match v q modes = true -> literal_match v q (m :: modes) = true.
Proof.
  intros Hm. unfold literal_match. rewrite !mem_cons.
  assert (String.eqb "case-sensitive" m = false) as ->.
  { apply String.eqb_neq. congruence. }
  cbn [orb]. destruct (Py.mem "case-sensitive" modes).
  - intros [[-> ->]%andb_true_iff|[-> ->]%andb_true_iff]%orb_true_iff;
      rewrite ?orb_true_r; cbn; by rewrite ?orb_true_r.
  - intros [[-> ->]%andb_true_iff|[-> ->]%andb_true_iff]%orb_true_iff;
      rewrite ?orb_true_r; cbn; by rewrite ?orb_true_r.
Qed.

Hypothesis re_search_contract :
  forall (q v : string) (e : exn), re_search q v = Raise e -> e = re_error.

Lemma regex_part_returns (v q : string) (modes : list string) :
  exists found, regex_part re_search v q modes = Ok found.
Proof.
  unfold regex_part. destruct (Py.mem "regex" modes); [|eauto].
  destruct (re_search q v) as [found|e] eqn:Hs; [eauto|].
  rewrite (re_search_contract _ _ _ Hs). eauto.
Qed.

Lemma regex_part_more (v q m : string) (modes : list string) :
  regex_part re_search v q modes = Ok true ->
  regex_part re_search v q (m :: modes) = Ok true.
Proof.
  unfold regex_part. rewrite mem_cons.
  destruct (Py.mem "regex" modes); [|done]. by rewrite orb_true_r.
Qed.

(** X9: the modes add up: when [re.search] raises nothing but [re.error], a
    value that matches under some modes still matches when one more mode
    other than the case-sensitive modifier is selected. *)
Theorem match_with_one_more_mode (v q m : string) (modes : list string) (t : float)
    (p : string) :
  m <> "case-sensitive" ->
  matches re_search ratio v q modes t = Ok (true, p) ->
  exists p', matches re_search ratio v q (m :: modes) t = Ok (true, p').
Proof.
  intros Hm. rewrite !matches_disjunction.
  destruct (regex_part_returns v q (m :: modes)) as [found' Hfound'].
  rewrite Hfound'.
  destruct (regex_part re_search v q modes) as [found|e] eqn:Hfound; [|done].
  cbv beta iota delta [mbind result_bind bind].
  destruct (Py.mem "fuzzy" (m :: modes) && fuzzy_holds ratio v q t) eqn:Hfz;
    [intros _; by exists v|].
  assert (Py.mem "fuzzy" modes && fuzzy_holds ratio v q t = false) as ->.
  { rewrite mem_cons in Hfz. destruct (Py.mem "fuzzy" modes); [|done].
    by rewrite orb_true_r in Hfz. }
  intros [= Hv <-]. exists "". do 2 f_equal.
  apply orb_true_iff in Hv as [Hv| ->].
  - by rewrite literal_match_more.
  - apply (regex_part_more v q m) in Hfound. rewrite Hfound in Hfound'.
    injection Hfound' as <-. by rewrite orb_true_r.
Qed.

End MoreMatching.

Lemma sample_re_search_contract (q v : string) (e : exn) :
  sample_re_search q v = Raise e -> e = re_error.
Proof.
  unfold sample_re_search.
  destruct (String.eqb q "("); [intros [= <-]; reflexivity | discriminate].
Defined.

Lemma match_without_case_sensitive_witness :
  matches sample_re_search sample_ratio "LaTeX" "aTe"
    (without_mode "case-sensitive" ["case-sensitive"; "contains"]) 1 = Ok (true, "").
Proof.
  apply (match_without_case_sensitive sample_re_search sample_ratio "LaTeX" "aTe"
           ["case-sensitive"; "contains"] 1 ""); reflexivity.
Defined.

Lemma match_with_one_more_mode_witness :
  exists p', matches sample_re_search sample_ratio "LaTeX" "latex"
               ["fuzzy"; "exact"] 1 = Ok (true, p').
Proof.
  apply (match_with_one_more_mode sample_re_search sample_ratio
           sample_re_search_contract "LaTeX" "latex" "fuzzy" ["exact"] 1 "").
  - discriminate.
  - reflexivity.
Defined.

(** ** The search over the database *)

Section SearchFacts.

Variable re_search : string -> string -> result bool.
Variable ratio : string -> string -> float.

Lemma matches_preview (v q : string) (modes : list string) (t : float) (b : bool)
    (p : string) :
  matches re_search ratio v q modes t = Ok (b, p) -> p = "" ∨ p = v.
Proof.
  rewrite matches_disjunction.
  destruct (regex_part re_search v q modes) as [found|]; [|done].
  cbv beta iota delta [mbind result_bind bind].
  destruct (_ && _); intros [= _ <-]; eauto.
Qed.

(** X10: the results of a search are entries of the database, each at most
    once and in the order of the database; the preview of a result is empty
    or the value of the searched field. *)
Theorem search_results_in_order (db : database) (field q : string)
    (modes : list string) (t : float) (results : list (string * entry_dict * string)) :
  search re_search ratio db field q modes t = Ok results ->
  sublist (map found_item results) db
  ∧ Forall (fun r => r.2 = "" ∨ r.2 = default "" (r.1.2 !! field)) results.
Proof.
  revert results. induction db as [|[k e] db IH]; intros results; simpl.
  - intros [= <-]. split; constructor.
  - destruct (matches _ _ _ _ _ _) as [[m p]|] eqn:Hm; [|done].
    cbv beta iota delta [mbind result_bind bind].
    destruct (search _ _ _ _ _ _ _) as [rest|]; [|done].
    destruct (IH rest eq_refl) as [Hsub Hprev].
    intros [= <-]. destruct m; simpl.
    + split; [by constructor|]. constructor; [|done]. simpl.
      by apply matches_preview in Hm.
    + split; [by constructor | done].
Qed.

(** X11: with only the contains mode, the empty query finds every entry of
    the database, those without the searched field included, each with an
    empty preview; with no mode selected a search finds nothing. *)
Theorem search_all_and_none (db : database) (field q : string) (t : float) :
  search re_search ratio db field "" ["contains"] t
  = Ok (map (fun kv => (kv.1, kv.2, "")) db)
  ∧ search re_search ratio db field q [] t = Ok [].
Proof.
  split.
  - induction db as [|[k e] db IH]; [done|]. cbn [search].
    rewrite IH, matches_unfold. unfold literal_match. cbn.
    by rewrite isin_empty.
  - induction db as [|[k e] db IH]; [done|]. cbn [search].
    rewrite IH, matches_unfold. reflexivity.
Qed.

Hypothesis re_search_contract :
  forall (q v : string) (e : exn), re_search q v = Raise e -> e = re_error.

Lemma matches_exact_same (v : string) (modes : list string) (t : float) :
  Py.mem "exact" modes = true ->
  exists p, matches re_search ratio v v modes t = Ok (true, p).
Proof.
  intros Hexact. rewrite matches_disjunction.
  destruct (regex_part_returns re_search re_search_contract v v modes) as [found ->].
  cbv beta iota delta [mbind result_bind bind].
  destruct (_ && _); [eauto|]. exists "". do 2 f_equal.
  unfold literal_match. rewrite Hexact, !String.eqb_refl.
  by destruct (Py.mem "case-sensitive" modes).
Qed.

(** X12: when [re.search] raises nothing but [re.error] and the exact mode
    is selected, searching a field for the value an entry has in it finds
    that entry, whatever other modes are selected. *)
Theorem search_finds_exact_value (db : database) (field v k : string) (e : entry_dict)
    (modes : list string) (t : float) :
  (k, e) ∈ db ->
  e !! field = Some v ->
  Py.mem "exact" modes = true ->
  exists results p,
    search re_search ratio db field v modes t = Ok results ∧ (k, e, p) ∈ results.
Proof.
  intros Hin Hv Hexact. induction db as [|[k' e'] db IH]; [by apply elem_of_nil in Hin|].
  cbn [search].
  destruct (search_returns re_search ratio re_search_contract db field v modes t)
    as [rest Hrest].
  apply elem_of_cons in Hin as [[= <- <-]|Hin].
  - rewrite Hv. change (default "" (Some v)) with v.
    destruct (matches_exact_same v modes t Hexact) as [p ->]. rewrite Hrest.
    exists ((k, e, p) :: rest), p. split; [done | by left].
  - destruct (IH Hin) as (results & p & Hsearch & Hp).
    rewrite Hrest in Hsearch. injection Hsearch as <-.
    destruct (matches_returns re_search ratio re_search_contract
                (default "" (e' !! field)) v modes t) as [[m p'] ->].
    rewrite Hrest. cbv beta iota delta [mbind result_bind bind].
    destruct m; eexists _, p; (split; [done|]); [by right | done].
Qed.

End SearchFacts.

Lemma search_results_in_order_witness :
  sublist (map found_item [("lamport94", sample_db_entry, "")]) sample_db
  ∧ Forall (fun r => r.2 = "" ∨ r.2 = default "" (r.1.2 !! "title"))
      [("lamport94", sample_db_entry, "")].
Proof.
  apply (search_results_in_order sample_re_search sample_ratio sample_db
           "title" "tex" ["contains"] 1).
  by vm_compute.
Defined.

Lemma search_finds_exact_value_witness :
  exists results p,
    search sample_re_search sample_ratio sample_db "title" "LaTeX"
      ["regex"; "exact"] 1 = Ok results
    ∧ ("lamport94", sample_db_entry, p) ∈ results.
Proof.
  apply (search_finds_exact_value sample_re_search sample_ratio
           sample_re_search_contract sample_db "title" "LaTeX" "lamport94"
           sample_db_entry ["regex"; "exact"] 1).
  - right. left.
  - reflexivity.
  - reflexivity.
Defined.

(** ** The field list, once more *)

Lemma filter_sublist (f : string -> bool) (l : list string) : sublist (List.filter f l) l.
Proof.
  induction l as [|x l IH]; simpl; [constructor|].
  destruct (f x); by constructor.
Qed.

Lemma dedupe_from_sublist (seen : gset string) (l : list string) :
  sublist (dedupe_from seen l) l.
Proof.
  revert seen. induction l as [|x l IH]; intros seen; simpl; [constructor|].
  destruct (decide (x ∈ seen)); constructor; apply IH.
Qed.

Lemma dedupe_from_id (seen : gset string) (l : list string) :
  NoDup l -> (forall x, x ∈ l -> x ∉ seen) -> dedupe_from seen l = l.
Proof.
  intros Hnd. revert seen. induction Hnd as [|x l Hx Hnd IH]; intros seen Hseen; [done|].
  simpl. rewrite decide_False by (apply Hseen; by left). f_equal.
  apply IH. intros y Hy. apply not_elem_of_union. split.
  - apply not_elem_of_singleton. by intros ->.
  - apply Hseen. by right.
Qed.

Lemma filter_all (f : string -> bool) (l : list string) :
  (forall x, x ∈ l -> f x = true) -> List.filter f l = l.
Proof.
  induction l as [|x l IH]; intros Hall; [done|]. simpl.
  rewrite Hall by by left. f_equal. apply IH. intros y Hy. apply Hall. by right.
Qed.

(** X13: the field list loaded has no duplicates, whatever the persisted
    order, when the names of the schema's fields are distinct (they are the
    keys of a JSON object). *)
Theorem load_bibtex_fields_NoDup (registry field_order : list string) :
  NoDup registry -> NoDup (load_bibtex_fields registry field_order).
Proof.
  intros Hreg. destruct field_order as [|x l]; [done|].
  rewrite load_bibtex_fields_listed_only by done. apply dedupe_from_NoDup.
Qed.

Lemma load_bibtex_fields_NoDup_witness :
  NoDup (load_bibtex_fields ["author"; "title"; "year"] ["year"; "isbn"; "year"; "title"]).
Proof.
  apply (load_bibtex_fields_NoDup ["author"; "title"; "year"]
           ["year"; "isbn"; "year"; "title"]).
  repeat (constructor; [set_solver|]). constructor.
Defined.

(** X14: with a non-empty persisted order the field list loaded keeps the
    order of the persisted list: it is a sublist of it, made of the names
    that are registered. *)
Theorem load_bibtex_fields_in_order (registry field_order : list string) :
  field_order <> [] ->
  sublist (load_bibtex_fields registry field_order) field_order
  ∧ forall x, x ∈ load_bibtex_fields registry field_order
              <-> x ∈ field_order ∧ x ∈ registry.
Proof.
  intros Hne. split; [|intros x; by apply load_bibtex_fields_members].
  rewrite load_bibtex_fields_listed_only by done.
  etrans; [apply dedupe_from_sublist | apply filter_sublist].
Qed.

Lemma load_bibtex_fields_in_order_witness :
  sublist (load_bibtex_fields ["author"; "title"; "year"] ["year"; "isbn"; "title"])
    ["year"; "isbn"; "title"]
  ∧ forall x, x ∈ load_bibtex_fields ["author"; "title"; "year"] ["year"; "isbn"; "title"]
              <-> x ∈ ["year"; "isbn"; "title"] ∧ x ∈ ["author"; "title"; "year"].
Proof.
  apply (load_bibtex_fields_in_order ["author"; "title"; "year"] ["year"; "isbn"; "title"]).
  discriminate.
Defined.

(** X15: loading is stable: when the field list loaded is not empty and is
    persisted as the order, loading again gives the same list. *)
Theorem load_bibtex_fields_stable (registry field_order : list string) :
  NoDup registry ->
  load_bibtex_fields registry field_order <> [] ->
  load_bibtex_fields registry (load_bibtex_fields registry field_order)
  = load_bibtex_fields registry field_order.
Proof.
  intros Hreg Hne. set (loaded := load_bibtex_fields registry field_order) in *.
  assert (Hmem : forall x, x ∈ loaded -> x ∈ registry).
  { intros x Hx. unfold loaded in Hx. destruct field_order as [|y l]; [done|].
    by apply load_bibtex_fields_members in Hx as [_ ?]. }
  rewrite load_bibtex_fields_listed_only by done.
  rewrite filter_all by (intros x Hx; by apply mem_elem_of, Hmem).
  apply dedupe_from_id; [|set_solver].
  unfold loaded. destruct field_order as [|y l]; [done|].
  rewrite load_bibtex_fields_listed_only by done. apply dedupe_from_NoDup.
Qed.

Lemma load_bibtex_fields_stable_witness :
  load_bibtex_fields ["author"; "title"; "year"]
    (load_bibtex_fields ["author"; "title"; "year"] ["year"; "isbn"; "year"; "title"])
  = load_bibtex_fields ["author"; "title"; "year"] ["year"; "isbn"; "year"; "title"].
Proof.
  apply (load_bibtex_fields_stable ["author"; "title"; "year"]
           ["year"; "isbn"; "year"; "title"]).
  - repeat (constructor; [set_solver|]). constructor.
  - by vm_compute.
Defined.

(** ** The form: disabled fields *)

Lemma create_widgets_normal (data : option entry_dict) (l : list string) :
  forall ws : gmap string widget,
    (forall f w, ws !! f = Some w -> normal w = true) ->
    forall f w, create_widgets data l ws !! f = Some w -> normal w = true.
Proof.
  induction l as [|x l IH]; intros ws Hws; [done|]. simpl. apply IH.
  intros f w Hl. destruct (decide (f = x)) as [->|Hne].
  - rewrite lookup_insert_eq in Hl. by injection Hl as <-.
  - rewrite lookup_insert_ne in Hl by done. by eapply Hws.
Qed.

Lemma update_loop_disabled_empty (info : entry_type_info) (l : list string) :
  forall ws ws', disabled_empty ws -> update_loop info l ws = Ok ws' -> disabled_empty ws'.
Proof.
  induction l as [|x l IH]; intros ws ws' Hws; simpl.
  - by intros [= <-].
  - unfold getitem. destruct (ws !! x) as [w0|] eqn:Hx; [|done]. simpl.
    apply IH. intros f w Hl Hn. destruct (decide (f = x)) as [->|Hne].
    + rewrite lookup_insert_eq in Hl. injection Hl as <-.
      unfold update_widget in *. case_decide; [done|]. simpl.
      destruct (normal w0) eqn:Hn0; [done|]. by eapply Hws.
    + rewrite lookup_insert_ne in Hl by done. by eapply Hws.
Qed.

Lemma update_fields_disabled_empty sch BIB_FIELDS (fm fm' : form) :
  disabled_empty (widgets fm) -> update_fields sch BIB_FIELDS fm = Ok fm' ->
  disabled_empty (widgets fm').
Proof.
  intros Hfm. unfold update_fields.
  destruct (getitem _ _) as [info|]; [|done]. simpl.
  destruct (update_loop _ _ _) as [ws|] eqn:Hloop; [|done]. simpl.
  intros [= <-]. simpl. by eapply update_loop_disabled_empty.
Qed.

Lemma act_disabled_empty sch BIB_FIELDS (fm fm' : form) (a : action) :
  disabled_empty (widgets fm) -> act sch BIB_FIELDS fm a = Ok fm' ->
  disabled_empty (widgets fm').
Proof.
  intros Hfm. destruct a as [field value|value|et]; simpl.
  - destruct (widgets fm !! field) as [w|] eqn:Hw; [|by intros [= <-]].
    destruct (normal w); [|by intros [= <-]]. intros [= <-]. simpl.
    intros f w' Hl Hn. destruct (decide (f = field)) as [->|Hne].
    + rewrite lookup_insert_eq in Hl. by injection Hl as <-.
    + rewrite lookup_insert_ne in Hl by done. by eapply Hfm.
  - by intros [= <-].
  - by apply update_fields_disabled_empty.
Qed.

(** X16: in a form, from its opening through any actions of the user, every
    disabled field is empty: choosing an entry type clears the fields it
    does not have, and typing into a disabled field does nothing. *)
Theorem disabled_fields_are_empty (sch : schema) (field_order : list string)
    (mode : form_mode) (key : option string) (entry_data : option entry_dict)
    (show_key : bool) (user : list action) (fm0 fm : form) :
  entry_form_gui sch field_order mode key entry_data show_key = Ok fm0 ->
  acts sch (load_bibtex_fields (map fst (fields sch)) field_order) fm0 user = Ok fm ->
  disabled_empty (widgets fm).
Proof.
  intros Hopen Hacts.
  assert (H0 : disabled_empty (widgets fm0)).
  { unfold entry_form_gui in Hopen.
    destruct (getitem _ _) as [info|]; [|done]. simpl in Hopen.
    eapply update_fields_disabled_empty; [|exact Hopen]. simpl.
    intros f w Hl Hn.
    rewrite (create_widgets_normal _ _ ∅ (fun f w H => match lookup_empty_Some _ _ H with end) f w Hl) in Hn.
    done. }
  clear Hopen. revert fm0 H0 Hacts.
  induction user as [|a l IH]; intros fm0 H0; simpl.
  - by intros [= <-].
  - destruct (act _ _ _ _) as [fm1|] eqn:Hact; [|done]. simpl.
    apply IH. by eapply act_disabled_empty.
Qed.

Lemma disabled_fields_are_empty_witness :
  disabled_empty
    (widgets {| entry_type_var := "book"; key_entry := Some "";
                widgets := sample_book_widgets |}).
Proof.
  apply (disabled_fields_are_empty sample_schema [] add None None true
           [SetField "volume" "3"; SetField "journal" "TUGboat"; SelectType "book";
            SetField "journal" "again"]
           sample_form).
  - by vm_compute.
  - by vm_compute.
Defined.

(** ** The database as a list of items *)

Lemma db_mem_get (k : string) (db : database) :
  db_mem k db = true <-> is_Some (db_get k db).
Proof.
  induction db as [|[k' v] db IH]; simpl.
  - split; [done | by intros [? ?]].
  - destruct (String.eqb k k'); simpl; [split; eauto | done].
Qed.

Lemma db_mem_keys (k : string) (db : database) :
  db_mem k db = true <-> k ∈ map fst db.
Proof.
  induction db as [|[k' v] db IH]; simpl.
  - split; [done | by intros ?%elem_of_nil].
  - rewrite elem_of_cons, orb_true_iff, IH, String.eqb_eq. done.
Qed.

Lemma db_set_fresh (k : string) (v : entry_dict) (db : database) :
  db_mem k db = false -> db_set k v db = (db ++ [(k, v)])%list.
Proof.
  induction db as [|[k' v'] db IH]; simpl; [done|].
  destruct (String.eqb k k'); simpl; [done|]. intros H. by rewrite IH.
Qed.

Lemma db_get_set (k k' : string) (v : entry_dict) (db : database) :
  db_get k' (db_set k v db) = if String.eqb k' k then Some v else db_get k' db.
Proof.
  induction db as [|[k0 v0] db IH]; simpl; [done|].
  destruct (String.eqb k k0) eqn:Hk; simpl.
  - apply String.eqb_eq in Hk as <-. by destruct (String.eqb k' k).
  - rewrite IH. destruct (String.eqb k' k0) eqn:Hk0; [|done].
    apply String.eqb_eq in Hk0 as ->.
    by rewrite String.eqb_sym, Hk.
Qed.

Lemma db_set_keys (k : string) (v : entry_dict) (db : database) :
  map fst (db_set k v db)
  = if db_mem k db then map fst db else (map fst db ++ [k])%list.
Proof.
  induction db as [|[k0 v0] db IH]; simpl; [done|].
  destruct (String.eqb k k0) eqn:Hk; simpl.
  - by apply String.eqb_eq in Hk as <-.
  - rewrite IH. by destruct (db_mem k db).
Qed.

Lemma db_set_NoDup (k : string) (v : entry_dict) (db : database) :
  NoDup (map fst db) -> NoDup (map fst (db_set k v db)).
Proof.
  intros Hnd. rewrite db_set_keys. destruct (db_mem k db) eqn:Hk; [done|].
  apply NoDup_app. split; [done|]. split; [|apply NoDup_singleton].
  intros x Hx ->%list_elem_of_singleton.
  apply db_mem_keys in Hx. congruence.
Qed.

Lemma db_mem_set (k k' : string) (v : entry_dict) (db : database) :
  db_mem k' (db_set k v db) = String.eqb k' k || db_mem k' db.
Proof.
  apply Bool.eq_true_iff_eq. rewrite orb_true_iff, !db_mem_get, db_get_set.
  destruct (String.eqb k' k); [split; eauto | naive_solver].
Qed.

Lemma db_del_cons (k k0 : string) (v0 : entry_dict) (db : database) :
  db_del k ((k0, v0) :: db)
  = if String.eqb k k0 then db_del k db else (k0, v0) :: db_del k db.
Proof.
  unfold db_del. rewrite filter_cons. cbn [fst].
  destruct (String.eqb k k0); reflexivity.
Qed.

Lemma db_get_del (k k' : string) (db : database) :
  db_get k' (db_del k db) = if String.eqb k' k then None else db_get k' db.
Proof.
  induction db as [|[k0 v0] db IH].
  - simpl. by destruct (String.eqb k' k).
  - rewrite db_del_cons. destruct (String.eqb k k0) eqn:Hk; simpl.
    + apply String.eqb_eq in Hk as <-. rewrite IH.
      by destruct (String.eqb k' k).
    + rewrite IH. destruct (String.eqb k' k0) eqn:Hk0; [|done].
      apply String.eqb_eq in Hk0 as ->. by rewrite String.eqb_sym, Hk.
Qed.

Lemma db_del_keys_sublist (k : string) (db : database) :
  sublist (map fst (db_del k db)) (map fst db).
Proof.
  induction db as [|[k0 v0] db IH]; [done|]. rewrite db_del_cons.
  destruct (String.eqb k k0); simpl; by constructor.
Qed.

Lemma db_del_length (k : string) (db : database) :
  NoDup (map fst db) -> db_mem k db = true -> S (length (db_del k db)) = length db.
Proof.
  induction db as [|[k0 v0] db IH]; [done|]. rewrite db_del_cons. simpl.
  intros [Hk0 Hnd]%NoDup_cons. destruct (String.eqb k k0) eqn:Hk; simpl.
  - intros _. apply String.eqb_eq in Hk as ->. f_equal.
    clear IH. induction db as [|[k1 v1] db IH]; [done|]. rewrite db_del_cons. simpl in *.
    apply not_elem_of_cons in Hk0 as [Hne Hk0]. apply NoDup_cons in Hnd as [_ Hnd].
    assert (String.eqb k0 k1 = false) as -> by by apply String.eqb_neq.
    simpl. f_equal. by apply IH.
  - intros Hmem. f_equal. by apply IH.
Qed.

Lemma db_set_length (k : string) (v : entry_dict) (db : database) :
  length (db_set k v db) = if db_mem k db then length db else S (length db).
Proof.
  induction db as [|[k0 v0] db IH]; simpl; [done|].
  destruct (String.eqb k k0); simpl; [done|]. rewrite IH. by destruct (db_mem k db).
Qed.

(** ** Adding, editing and importing entries *)

Lemma save_saved_add sch (key : option string) fm answer db k e :
  save sch add true key fm answer db = Ok (Saved k e) ->
  k <> "" ∧ db_mem k db = false.
Proof.
  unfold save. destruct (getitem _ _) as [info|]; [|done]. simpl.
  destruct (missing_loop _ _) as [missing|]; [|done]. simpl.
  destruct (Py.truthy (new_key_of fm key)) eqn:Hk; [|done]. simpl.
  destruct (negb _); [done|].
  destruct (db_mem (new_key_of fm key) db) eqn:Hmem; [done|].
  destruct (_ && negb answer); [done|].
  intros [= <- _]. by apply truthy_true_iff in Hk.
Qed.

(** X17: adding an entry never touches the entries there are: when the
    form's save goes through, the key is not empty and was free, and the new
    database is the old one with the new entry at its end; in every other
    case the database is as it was. *)
Theorem add_entry_appends (sch : schema) (field_order : list string)
    (user : list action) (answer : bool) (db db' : database) (r : save_outcome) :
  add_entry_gui sch field_order user answer db = Ok (r, db') ->
  match r with
  | Saved k e => k <> "" ∧ db_mem k db = false ∧ db' = (db ++ [(k, e)])%list
  | _ => db' = db
  end.
Proof.
  unfold add_entry_gui, form_session, press_save.
  destruct (entry_form_gui _ _ _ _ _ _) as [fm0|]; [|done]. simpl.
  destruct (acts _ _ _ _) as [fm|]; [|done]. simpl.
  destruct (save _ _ _ _ _ _ _) as [r0|] eqn:Hsave; [|done]. simpl.
  intros [= <- <-]. destruct r0 as [msg| |k e]; [done..|].
  apply save_saved_add in Hsave as [Hk Hmem].
  split; [done|]. split; [done|]. by apply db_set_fresh.
Qed.

Lemma add_entry_appends_witness :
  "knuth84" <> "" ∧ db_mem "knuth84" sample_imported = false
  ∧ (sample_imported ++ [("knuth84", sample_saved)])%list
    = (sample_imported ++ [("knuth84", sample_saved)])%list.
Proof.
  apply (add_entry_appends sample_schema [] sample_actions true sample_imported
           (sample_imported ++ [("knuth84", sample_saved)])%list
           (Saved "knuth84" sample_saved)).
  by vm_compute.
Defined.

(** What the [on_save] of the edit form does, case by case. *)
Lemma edit_on_save_cases (key new_key : string) (new_entry : entry_dict)
    (db : database) :
  NoDup (map fst db) ->
  db_mem key db = true ->
  exists (written : bool) (db' : database),
    edit_on_save key new_key new_entry db = Ok (written, db')
    ∧ NoDup (map fst db')
    ∧ length db' = length db
    ∧ if written
      then db_get new_key db' = Some new_entry
           ∧ (new_key <> key -> db_mem new_key db = false)
           ∧ (new_key <> key -> db_get key db' = None)
           ∧ (forall k, k <> new_key -> k <> key -> db_get k db' = db_get k db)
      else db' = db ∧ new_key <> key ∧ db_mem new_key db = true.
Proof.
  intros Hnd Hkey. unfold edit_on_save.
  destruct (String.eqb new_key key) eqn:Hsame; simpl.
  - apply String.eqb_eq in Hsame as ->.
    exists true, (db_set key new_entry db). split; [done|].
    split; [by apply db_set_NoDup|]. split; [by rewrite db_set_length, Hkey|].
    split; [by rewrite db_get_set, String.eqb_refl|]. split; [done|]. split; [done|].
    intros k Hk _. rewrite db_get_set.
    by assert (String.eqb k key = false) as -> by by apply String.eqb_neq.
  - apply String.eqb_neq in Hsame.
    destruct (db_mem new_key db) eqn:Hnew; simpl.
    + exists false, db. by repeat split.
    + rewrite Hkey. simpl. exists true, (db_set new_key new_entry (db_del key db)).
      assert (Hfree : db_mem new_key (db_del key db) = false).
      { apply not_true_is_false. rewrite db_mem_keys. intros Hin.
        apply (fun H => elem_of_sublist _ _ _ H (db_del_keys_sublist key db)) in Hin.
        apply db_mem_keys in Hin. congruence. }
      split; [done|]. split.
      { apply db_set_NoDup.
        eapply sublist_NoDup; [exact Hnd|]. apply db_del_keys_sublist. }
      split.
      { rewrite db_set_length, Hfree. by apply db_del_length. }
      split; [by rewrite db_get_set, String.eqb_refl|]. split; [done|]. split.
      * intros _. rewrite db_get_set, db_get_del, String.eqb_refl.
        by assert (String.eqb key new_key = false) as ->
          by (apply String.eqb_neq; congruence).
      * intros k Hk1 Hk2. rewrite db_get_set, db_get_del.
        assert (String.eqb k new_key = false) as -> by by apply String.eqb_neq.
        by assert (String.eqb k key = false) as -> by by apply String.eqb_neq.
Qed.

(** X18: the [on_save] of the edit form, on a database with distinct keys
    that holds the edited key, never raises, keeps the keys distinct and the
    number of entries as it was.  When it writes, the entry is at the new
    key, the old key is gone if the key changed, and every other entry is
    as it was; it does not write exactly when the new key differs from the
    old one and belongs to another entry, and then nothing changes. *)
Theorem edit_on_save_effect (key new_key : string) (new_entry : entry_dict)
    (db : database) :
  NoDup (map fst db) ->
  db_mem key db = true ->
  exists (written : bool) (db' : database),
    edit_on_save key new_key new_entry db = Ok (written, db')
    ∧ NoDup (map fst db')
    ∧ length db' = length db
    ∧ if written
      then db_get new_key db' = Some new_entry
           ∧ (new_key <> key -> db_get key db' = None)
           ∧ (forall k, k <> new_key -> k <> key -> db_get k db' = db_get k db)
      else db' = db ∧ new_key <> key ∧ db_mem new_key db = true.
Proof.
  intros Hnd Hkey.
  destruct (edit_on_save_cases key new_key new_entry db Hnd Hkey)
    as (written & db' & Hrun & Hkeys & Hlen & Hcases).
  exists written, db'. split; [done|]. split; [done|]. split; [done|].
  destruct written; [|done]. destruct Hcases as (? & _ & ? & ?). done.
Qed.

Lemma edit_on_save_effect_witness :
  exists (written : bool) (db' : database),
    edit_on_save "knuth84" "knuth86" sample_saved sample_db = Ok (written, db')
    ∧ NoDup (map fst db')
    ∧ length db' = length sample_db
    ∧ if written
      then db_get "knuth86" db' = Some sample_saved
           ∧ ("knuth86" <> "knuth84" -> db_get "knuth84" db' = None)
           ∧ (forall k, k <> "knuth86" -> k <> "knuth84" ->
                db_get k db' = db_get k sample_db)
      else db' = sample_db ∧ "knuth86" <> "knuth84" ∧ db_mem "knuth86" sample_db = true.
Proof.
  apply (edit_on_save_effect "knuth84" "knuth86" sample_saved sample_db).
  - repeat (constructor; [set_solver|]). constructor.
  - reflexivity.
Defined.

Lemma duplicate_loop_no_title_or_author (ask_entry : string -> bool)
    (new_key new_title new_author : string) (db : database) :
  new_title = "" ∨ new_author = "" ->
  duplicate_loop ask_entry new_key new_title new_author db = true.
Proof.
  intros Hempty. induction db as [|[k e] db IH]; [done|]. simpl.
  destruct (String.eqb k new_key); [done|].
  assert (same_title_author new_title new_author e = false) as ->; [|done].
  unfold same_title_author. destruct Hempty as [-> | ->]; simpl;
    by rewrite ?andb_false_r.
Qed.

Lemma lower_strip_empty (s : string) : Py.strip s = "" -> Py.lower (Py.strip s) = "".
Proof. by intros ->. Qed.

(** X19: in the review of imported entries, an entry at a free key whose
    title or author is empty once trimmed is never held back as a duplicate:
    it goes to the end of the database, whatever the answers would be. *)
Theorem import_without_title_or_author (ask_key ask_entry : string -> bool)
    (new_key : string) (new_entry : entry_dict) (db : database) :
  db_mem new_key db = false ->
  Py.strip (default "" (new_entry !! "title")) = ""
  ∨ Py.strip (default "" (new_entry !! "author")) = "" ->
  import_on_save ask_key ask_entry new_key new_entry db
  = (db ++ [(new_key, new_entry)])%list.
Proof.
  intros Hfree Hempty. unfold import_on_save. rewrite Hfree. cbn [andb].
  rewrite duplicate_loop_no_title_or_author.
  - by apply db_set_fresh.
  - destruct Hempty as [H|H]; [left | right]; by rewrite H.
Qed.

Lemma import_without_title_or_author_witness :
  import_on_save (fun _ => false) (fun _ => false) "lamport94"
    {[ "title" := "Old"; "author" := "  " ]} sample_imported
  = (sample_imported ++ [("lamport94", {[ "title" := "Old"; "author" := "  " ]})])%list.
Proof.
  apply (import_without_title_or_author (fun _ => false) (fun _ => false) "lamport94"
           {[ "title" := "Old"; "author" := "  " ]} sample_imported).
  - reflexivity.
  - right. reflexivity.
Defined.

Lemma duplicate_loop_refused (ask_entry : string -> bool)
    (new_key new_title new_author k0 : string) (e0 : entry_dict) (db : database) :
  (k0, e0) ∈ db -> k0 <> new_key ->
  same_title_author new_title new_author e0 = true -> ask_entry k0 = false ->
  duplicate_loop ask_entry new_key new_title new_author db = false.
Proof.
  intros Hin Hne Hsame Hno. induction db as [|[k e] db IH]; [by apply elem_of_nil in Hin|].
  simpl. apply elem_of_cons in Hin as [[= <- <-]|Hin].
  - assert (String.eqb k0 new_key = false) as -> by by apply String.eqb_neq.
    by rewrite Hsame, Hno.
  - rewrite (IH Hin). destruct (String.eqb k new_key); [done|].
    destruct (same_title_author _ _ e); [|done]. by destruct (ask_entry k).
Qed.

(** X20: in the review of imported entries, when an entry under another key
    has the same title and the same author (trimmed, in lower case, neither
    empty) and the user answers no to the question about it, nothing is
    written; and whatever the answers, [on_save] leaves every entry at
    another key as it was and removes no key. *)
Theorem import_on_save_conservative (ask_key ask_entry : string -> bool)
    (new_key : string) (new_entry : entry_dict) (db : database) :
  (forall k0 e0,
     (k0, e0) ∈ db -> k0 <> new_key ->
     same_title_author (Py.lower (Py.strip (default "" (new_entry !! "title"))))
       (Py.lower (Py.strip (default "" (new_entry !! "author")))) e0 = true ->
     ask_entry k0 = false ->
     import_on_save ask_key ask_entry new_key new_entry db = db)
  ∧ (forall k, k <> new_key ->
       db_get k (import_on_save ask_key ask_entry new_key new_entry db) = db_get k db)
  ∧ (forall k, db_mem k db = true ->
       db_mem k (import_on_save ask_key ask_entry new_key new_entry db) = true).
Proof.
  split; [|split].
  - intros k0 e0 Hin Hne Hsame Hno. unfold import_on_save.
    destruct (_ && negb _); [done|].
    by rewrite (duplicate_loop_refused _ _ _ _ k0 e0 db).
  - intros k Hk. unfold import_on_save. destruct (_ && negb _); [done|].
    destruct (duplicate_loop _ _ _ _ _); [|done]. rewrite db_get_set.
    by assert (String.eqb k new_key = false) as -> by by apply String.eqb_neq.
  - intros k Hk. unfold import_on_save. destruct (_ && negb _); [done|].
    destruct (duplicate_loop _ _ _ _ _); [|done]. by rewrite db_mem_set, Hk, orb_true_r.
Qed.

(** X21: editing an entry, on a database with distinct keys, keeps the keys
    distinct and the number of entries as it was, and leaves every other
    entry there was as it was: a new key that belongs to another entry is
    refused, and an unknown key opens no form. *)
Theorem edit_entry_keeps_others (sch : schema) (field_order : list string) (key : string)
    (user : list action) (answer : bool) (db db' : database)
    (r : option save_outcome) :
  NoDup (map fst db) ->
  edit_entry_gui sch field_order key user answer db = Ok (r, db') ->
  NoDup (map fst db')
  ∧ length db' = length db
  ∧ forall k, k <> key -> is_Some (db_get k db) -> db_get k db' = db_get k db.
Proof.
  intros Hnd. unfold edit_entry_gui.
  destruct (db_mem key db) eqn:Hkey; simpl; [|by intros [= _ <-]].
  destruct (entry_form_gui _ _ _ _ _ _) as [fm0|]; [|done]. simpl.
  destruct (acts _ _ _ _) as [fm|]; [|done]. simpl.
  destruct (save _ _ _ _ _ _ _) as [[msg| |new_key new_entry]|]; simpl;
    [by intros [= _ <-] | by intros [= _ <-] | | done].
  destruct (edit_on_save_cases key new_key new_entry db Hnd Hkey)
    as (written & db1 & -> & Hkeys & Hlen & Hcases).
  simpl. intros [= _ <-]. split; [done|]. split; [done|].
  intros k Hk Hsome. destruct written; [|by destruct Hcases as [-> _]].
  destruct Hcases as (_ & Hfree & _ & Hother).
  destruct (decide (k = new_key)) as [->|Hne]; [|by apply Hother].
  apply db_mem_get in Hsome. rewrite Hfree in Hsome by done. done.
Qed.

Lemma edit_entry_keeps_others_witness :
  NoDup (map fst sample_edited)
  ∧ length sample_edited = length sample_db
  ∧ forall k, k <> "knuth84" -> is_Some (db_get k sample_db) ->
      db_get k sample_edited = db_get k sample_db.
Proof.
  apply (edit_entry_keeps_others sample_schema [] "knuth84"
           [SetKey "knuth86"; SetField "year" "1986"] true sample_db sample_edited
           (Some (Saved "knuth86" sample_edited_entry))).
  - repeat (constructor; [set_solver|]). constructor.
  - by vm_compute.
Defined.

(** ** The parser: a header closes the entry before it *)

Lemma parse_line_header_line (st : parser) (h : string) :
  header_line h = true ->
  parse_line st h = after_entries (flush st) (parse_line parser_init h).
Proof.
  unfold header_line, parse_line. intros Hh.
  destruct (Py.strip h) as [|c line] eqn:Hline; [done|].
  rewrite Hh. cbn [Py.truthy negb].
  change (flush parser_init) with (@nil (string * entry_dict)).
  unfold after_entries.
  destruct (parse_header _) as [[et k]|]; simpl; by rewrite app_nil_r.
Qed.

(** X22: a header line closes what came before it, brace or no brace: the
    entries of the lines before a header and the entries of the lines from
    the header on are parsed independently and in that order. *)
Theorem parse_before_header (before after : list string) (h : string) :
  header_line h = true ->
  parse_lines (before ++ h :: after)
  = (parse_lines before ++ parse_lines (h :: after))%list.
Proof.
  intros Hh. unfold parse_lines. rewrite foldl_app. cbn [foldl].
  rewrite (parse_line_header_line (foldl parse_line parser_init before)) by done.
  by rewrite foldl_parse_line_after_entries, flush_after_entries.
Qed.

Lemma parse_before_header_witness :
  parse_lines (["@book{k1,"; "title = {T}"] ++ " @article{k2," :: ["year = {1984}"])
  = (parse_lines ["@book{k1,"; "title = {T}"]
     ++ parse_lines (" @article{k2," :: ["year = {1984}"]))%list.
Proof.
  apply (parse_before_header ["@book{k1,"; "title = {T}"] ["year = {1984}"]
           " @article{k2,").
  reflexivity.
Defined.

(** ** The search when a pattern does not compile *)

Section InvalidPattern.

Variable re_search : string -> string -> result bool.
Variable ratio : string -> string -> float.




End InvalidPattern.



(** The results of the search above, computed. *)
Example invalid_pattern_results :
  search sample_re_search sample_ratio sample_db "title" "(" ["contains"; "regex"] 1
  = Ok [("knuth84", {[ "title" := "Literate (Programming)"; "entry_type" := "article" ]}, "")].
Proof. by vm_compute. Qed.

